(** * ghorg: the clone command (cmd/clone.go)

    A shallow embedding of the repository synchronisation orchestrator of
    ghorg: the filter pipeline, the per-repository action resolver, the
    executor loop and the final report, together with the pre-flight checks
    of [cloneFunc] and [setupRepoClone].

    Conventions.
    - Go strings are [string]s of bytes; the helpers of Go's [strings],
      [strconv] and [path/filepath] packages that the code calls are written
      out below from their documented behaviour (Unix flavour for paths).
    - The process environment is a finite map from variable names to values;
      [Getenv] returns the empty string for an unset variable, as [os.Getenv].
    - The file system, the remotes and the provider are an abstract world,
      reached only through [os.Stat], [os.MkdirAll], the ignore-file reader,
      the provider client and the [git.Gitter] interface.
    - Every collaborator call and every printed line is appended to a log
      kept in the state, so that statements about which operations ran, and
      in which order, are statements about that log.
    - [os.Exit], [log.Fatal], [panic] and an early [return] are the four ways
      a computation stops before its end. *)

From Stdlib Require Import ZArith String Ascii List Lia DecimalString.
From stdpp Require Import gmap strings list.

Local Open Scope string_scope.
Local Open Scope list_scope.

(** ** Go's [strings] package *)

Module strings.

(** [strings.HasPrefix]. *)
Fixpoint HasPrefix (s prefix : string) : bool :=
  match prefix, s with
  | EmptyString, _ => true
  | String p prefix', String c s' => Ascii.eqb c p && HasPrefix s' prefix'
  | String _ _, EmptyString => false
  end.

(** [strings.Contains]: [substr] occurs somewhere in [s]. *)
Fixpoint Contains (s substr : string) : bool :=
  HasPrefix s substr ||
  match s with
  | EmptyString => false
  | String _ s' => Contains s' substr
  end.

(** [strings.HasSuffix]. *)
Definition HasSuffix (s suffix : string) : bool :=
  let n := String.length s in
  let m := String.length suffix in
  (m <=? n)%nat && String.eqb (String.substring (n - m) m s) suffix.

(** The pieces of [s] between the occurrences of a non-empty [sep]; the
    head of the result is the piece being read, and [skip] counts the bytes
    of a separator occurrence that are still to be dropped. *)
Fixpoint Split_from (sep : string) (skip : nat) (s : string) : list string :=
  match s with
  | EmptyString => [""]
  | String c s' =>
      match skip with
      | S k => Split_from sep k s'
      | O =>
          if HasPrefix s sep
          then "" :: Split_from sep (String.length sep - 1) s'
          else match Split_from sep 0 s' with
               | piece :: pieces => String c piece :: pieces
               | [] => [String c ""]
               end
      end
  end.

Fixpoint explode (s : string) : list string :=
  match s with
  | EmptyString => []
  | String c s' => String c "" :: explode s'
  end.

(** [strings.Split]: with an empty separator the string is cut after every
    byte, otherwise at every occurrence of the separator. *)
Definition Split (s sep : string) : list string :=
  match sep with
  | EmptyString => explode s
  | String _ _ => Split_from sep 0 s
  end.

(** [strings.Join]. *)
Fixpoint Join (elems : list string) (sep : string) : string :=
  match elems with
  | [] => ""
  | [e] => e
  | e :: rest => e +:+ sep +:+ Join rest sep
  end.

(** No byte of [s] is [c]. *)
Fixpoint free_of (c : ascii) (s : string) : bool :=
  match s with
  | EmptyString => true
  | String a s' => negb (Ascii.eqb a c) && free_of c s'
  end.

End strings.

(** ** The repository descriptor

    [scm.Repo] is declared in package [scm]; these are the fields that
    cmd/clone.go reads and writes. *)

Record Repo := mkRepo {
  URL : string;
  IsWiki : bool;
  CloneBranch : string;
  Path : string;
  HostPath : string;
}.

Definition set_HostPath (p : string) (r : Repo) : Repo :=
  {| URL := URL r; IsWiki := IsWiki r; CloneBranch := CloneBranch r;
     Path := Path r; HostPath := p |}.

(** ** [getAppNameFromURL] (clone.go:239-244)

    [withGit[len(withGit)-1]] and [split[0:len(split)-1]] cannot go out of
    range: [strings.Split] with a non-empty separator returns at least one
    piece (lemma [Split_from_cons] below). *)

Definition getAppNameFromURL (url : string) : string :=
  let withGit := strings.Split url "/" in
  let appName := default "" (last withGit) in
  let split := strings.Split appName "." in
  strings.Join (take (length split - 1) split) ".".

(** ** Go's [strconv] package, on a 64-bit platform *)

Module strconv.

Definition digit (c : ascii) : option Z :=
  let n := Z.of_nat (nat_of_ascii c) in
  if (48 <=? n)%Z && (n <=? 57)%Z then Some (n - 48)%Z else None.

Fixpoint digits (s : string) (acc : Z) : option Z :=
  match s with
  | EmptyString => Some acc
  | String c s' =>
      match digit c with
      | Some d => digits s' (acc * 10 + d)%Z
      | None => None
      end
  end.

(** [strconv.Atoi]: an optional sign followed by one or more decimal digits,
    within the range of [int]; anything else is an error ([None]). *)
Definition Atoi (s : string) : option Z :=
  let '(neg, body) :=
    match s with
    | String "-" rest => (true, rest)
    | String "+" rest => (false, rest)
    | _ => (false, s)
    end in
  if String.eqb body "" then None
  else match digits body 0 with
       | None => None
       | Some n =>
           let v := if neg then (- n)%Z else n in
           if (- 2 ^ 63 <=? v)%Z && (v <=? 2 ^ 63 - 1)%Z then Some v else None
       end.

(** [strconv.Itoa], and [%v] of an [int], on a count. *)
Definition Itoa (n : nat) : string := NilZero.string_of_uint (Nat.to_uint n).

End strconv.

(** ** Go's [path/filepath] package (Unix) *)

Module filepath.

(** One path element of [Clean]; [stack] holds the elements kept so far,
    last one first. *)
Definition clean_step (rooted : bool) (stack : list string) (c : string)
  : list string :=
  if String.eqb c "" || String.eqb c "." then stack
  else if String.eqb c ".." then
    match stack with
    | top :: below => if String.eqb top ".." then c :: stack else below
    | [] => if rooted then [] else [c]
    end
  else c :: stack.

(** [filepath.Clean]: repeated separators, [.] elements, inner [..]
    elements and a trailing separator are removed. *)
Definition Clean (path : string) : string :=
  if String.eqb path "" then "."
  else
    let rooted := strings.HasPrefix path "/" in
    let kept := fold_left (clean_step rooted) (strings.Split path "/") [] in
    let body := strings.Join (rev kept) "/" in
    if rooted then "/" +:+ body
    else if String.eqb body "" then "." else body.

(** [filepath.Join]: leading empty elements are dropped, the rest is joined
    with the separator and cleaned. *)
Fixpoint Join (elem : list string) : string :=
  match elem with
  | [] => ""
  | e :: rest =>
      if String.eqb e "" then Join rest
      else Clean (strings.Join elem "/")
  end.

End filepath.

(** ** Errors, events and the collaborators *)

(** A Go [error] is kept as its message; [None] is [nil]. *)
Definition error : Type := option string.

(** The errors [os.Stat] can return, as far as [os.IsNotExist] tells them
    apart. *)
Inductive Errno := ENOENT | EACCES | ENOTDIR | EIO.

(** [os.IsNotExist]: false on [nil] and on every error but "no such file or
    directory". *)
Definition IsNotExist (err : option Errno) : bool :=
  match err with
  | Some ENOENT => true
  | _ => false
  end.

(** The methods of the [git.Gitter] interface. *)
Inductive GitOp :=
  Clone | Reset | Pull | SetOrigin | Clean | Checkout | UpdateRemote | FetchAll.

(** The printers of package [colorlog], [fmt.Println] and [log.Fatal]. *)
Inductive Printer :=
  PrintInfo | PrintSubtleInfo | PrintSuccess | PrintError | Println | LogFatal.

(** What a bufio scanner over a file gives: the open error, or the lines it
    produced and the error it stopped on. *)
Inductive Scan :=
| OpenFailed (err : string)
| Scanned (lines : list string) (err : error).

Inductive Event :=
| EvPrint (p : Printer) (msg : string)
| EvStat (path : string) (err : option Errno)
| EvMkdirAll (path : string) (err : error)
| EvScan (path : string)
| EvListRepos (isOrg : bool) (name : string)
| EvLimiter (limit : Z)
| EvGit (op : GitOp) (repo : Repo) (err : error).

(** The file system and the [git.Gitter] passed to [CloneAllRepos]. *)
Class Host (World : Type) := {
  os_Stat : string -> World -> option Errno;
  os_MkdirAll : string -> World -> error * World;
  os_Scan : string -> World -> Scan;
  git_run : GitOp -> Repo -> World -> error * World;
}.

(** Go's [regexp] package: [Compile] fails on an invalid pattern, and
    [FindString] is the text of the leftmost match, empty when there is
    none. *)
Class Regexp := {
  regexp : Type;
  regexp_Compile : string -> option regexp;
  regexp_FindString : regexp -> string -> string;
}.

(** Packages [configs] and [scm] of the repository, and [net/url]; their
    sources are not part of cmd/clone.go, which only calls them. *)
Class Packages (World : Type) := {
  EnsureTrailingSlash : string -> string;
  GetOrSetToken : gmap string string -> World -> gmap string string;
  VerifyTokenSet : gmap string string -> error;
  VerifyConfigsSetCorrectly : gmap string string -> error;
  GhorgIgnoreLocation : gmap string string -> string;
  GhorgIgnoreDetected : gmap string string -> World -> bool;
  GetCorrectFilePathSeparator : string;
  scm_GetClient : string -> error;
  scm_GetRepos :
    string -> bool -> string -> gmap string string -> World -> list Repo * error;
  url_Parse_Host : string -> option string;
}.

(** ** The state of a run

    [parentFolder], [targetCloneSource], [cloneInfos] and [cloneErrors] are
    package variables; [cloneCount] and [pulledCount] are locals of
    [CloneAllRepos] that every job closure captures by reference. A slice
    holds fewer than [2^63] elements, so the counters never wrap. *)

Record State (World : Type) := mkState {
  env : gmap string string;
  parentFolder : string;
  targetCloneSource : string;
  cloneInfos : list string;
  cloneErrors : list string;
  cloneCount : nat;
  pulledCount : nat;
  world : World;
  log : list Event;
}.

Arguments mkState {World}.
Arguments env {World}.
Arguments parentFolder {World}.
Arguments targetCloneSource {World}.
Arguments cloneInfos {World}.
Arguments cloneErrors {World}.
Arguments cloneCount {World}.
Arguments pulledCount {World}.
Arguments world {World}.
Arguments log {World}.

(** [os.Getenv]. *)
Definition Getenv (e : gmap string string) (k : string) : string :=
  default "" (e !! k).

(** Why a computation stopped before its end. *)
Inductive Stopped :=
| Returned
| Exited (code : Z)
| Panicked (msg : string).

Inductive Result (S A : Type) :=
| Ret (a : A) (s : S)
| Stop (why : Stopped) (s : S).

Arguments Ret {S A}.
Arguments Stop {S A}.

Definition final {S A} (r : Result S A) : S :=
  match r with
  | Ret _ s => s
  | Stop _ s => s
  end.

Definition M (World A : Type) : Type := State World -> Result (State World) A.

Section Run.

Context {World : Type} `{Host World} `{Packages World} `{Regexp}.

Definition ret {A} (a : A) : M World A := fun s => Ret a s.

Definition bind {A B} (m : M World A) (k : A -> M World B) : M World B :=
  fun s =>
    match m s with
    | Ret a s' => k a s'
    | Stop why s' => Stop why s'
    end.

Definition stop {A} (why : Stopped) : M World A := fun s => Stop why s.

(** The end of a function body: an early [return] inside it resumes the
    caller. *)
Definition body (m : M World unit) : M World unit :=
  fun s =>
    match m s with
    | Stop Returned s' => Ret tt s'
    | r => r
    end.

Definition get {A} (f : State World -> A) : M World A := fun s => Ret (f s) s.

Definition modify (f : State World -> State World) : M World unit :=
  fun s => Ret tt (f s).

End Run.

Declare Scope go_scope.
Delimit Scope go_scope with go.
Notation "x <- m ;; k" := (bind m (fun x => k))
  (at level 100, m at next level, right associativity) : go_scope.
Notation "m ;; k" := (bind m (fun _ => k))
  (at level 100, right associativity) : go_scope.
Notation "'return_'" := (stop Returned) : go_scope.

Local Open Scope go_scope.

(** ** Primitive actions *)

Section Actions.

Context {World : Type} `{Host World} `{Packages World} `{Regexp}.

Definition emit (e : Event) : M World unit :=
  modify (fun s =>
    mkState (env s) (parentFolder s) (targetCloneSource s) (cloneInfos s)
      (cloneErrors s) (cloneCount s) (pulledCount s) (world s) (log s ++ [e])).

Definition set_world (w : World) : M World unit :=
  modify (fun s =>
    mkState (env s) (parentFolder s) (targetCloneSource s) (cloneInfos s)
      (cloneErrors s) (cloneCount s) (pulledCount s) w (log s)).

(** [os.Setenv]. *)
Definition Setenv (k v : string) : M World unit :=
  modify (fun s =>
    mkState (<[k := v]> (env s)) (parentFolder s) (targetCloneSource s)
      (cloneInfos s) (cloneErrors s) (cloneCount s) (pulledCount s)
      (world s) (log s)).

Definition set_env (e : gmap string string) : M World unit :=
  modify (fun s =>
    mkState e (parentFolder s) (targetCloneSource s)
      (cloneInfos s) (cloneErrors s) (cloneCount s) (pulledCount s)
      (world s) (log s)).

Definition set_parentFolder (p : string) : M World unit :=
  modify (fun s =>
    mkState (env s) p (targetCloneSource s) (cloneInfos s) (cloneErrors s)
      (cloneCount s) (pulledCount s) (world s) (log s)).

Definition set_targetCloneSource (t : string) : M World unit :=
  modify (fun s =>
    mkState (env s) (parentFolder s) t (cloneInfos s) (cloneErrors s)
      (cloneCount s) (pulledCount s) (world s) (log s)).

(** [cloneInfos = append(cloneInfos, e)]. *)
Definition append_cloneInfos (e : string) : M World unit :=
  modify (fun s =>
    mkState (env s) (parentFolder s) (targetCloneSource s)
      (cloneInfos s ++ [e]) (cloneErrors s) (cloneCount s) (pulledCount s)
      (world s) (log s)).

(** [cloneErrors = append(cloneErrors, e)]. *)
Definition append_cloneErrors (e : string) : M World unit :=
  modify (fun s =>
    mkState (env s) (parentFolder s) (targetCloneSource s)
      (cloneInfos s) (cloneErrors s ++ [e]) (cloneCount s) (pulledCount s)
      (world s) (log s)).

(** [var cloneCount, pulledCount int]. *)
Definition reset_counts : M World unit :=
  modify (fun s =>
    mkState (env s) (parentFolder s) (targetCloneSource s)
      (cloneInfos s) (cloneErrors s) 0 0 (world s) (log s)).

(** [cloneCount++]. *)
Definition incr_cloneCount : M World unit :=
  modify (fun s =>
    mkState (env s) (parentFolder s) (targetCloneSource s)
      (cloneInfos s) (cloneErrors s) (S (cloneCount s)) (pulledCount s)
      (world s) (log s)).

(** [pulledCount++]. *)
Definition incr_pulledCount : M World unit :=
  modify (fun s =>
    mkState (env s) (parentFolder s) (targetCloneSource s)
      (cloneInfos s) (cloneErrors s) (cloneCount s) (S (pulledCount s))
      (world s) (log s)).

Definition getenv (k : string) : M World string :=
  get (fun s => Getenv (env s) k).

Definition print (p : Printer) (msg : string) : M World unit :=
  emit (EvPrint p msg).

(** [os.Exit(code)]. *)
Definition os_Exit {A} (code : Z) : M World A :=
  stop (Exited code).

(** [log.Fatal(msg)]: the message is written and the process exits with
    status 1. *)
Definition log_Fatal {A} (msg : string) : M World A :=
  print LogFatal msg ;; os_Exit 1.

(** [panic(msg)]. *)
Definition panic {A} (msg : string) : M World A :=
  stop (Panicked msg).

(** [_, err := os.Stat(path)]. *)
Definition Stat (path : string) : M World (option Errno) :=
  w <- get world ;;
  let err := os_Stat path w in
  emit (EvStat path err) ;;
  ret err.

(** [err := os.MkdirAll(path, 0700)]. *)
Definition MkdirAll (path : string) : M World error :=
  w <- get world ;;
  let '(err, w') := os_MkdirAll path w in
  set_world w' ;;
  emit (EvMkdirAll path err) ;;
  ret err.

(** One call of a [git.Gitter] method on [repo]. *)
Definition git (op : GitOp) (repo : Repo) : M World error :=
  w <- get world ;;
  let '(err, w') := git_run op repo w in
  set_world w' ;;
  emit (EvGit op repo err) ;;
  ret err.

(** [%v] of an error that is not [nil]. *)
Definition errv (e : string) : string := e.

End Actions.

(** ** More of Go's [strings] package, used by [cloneFunc] *)

Module strings_more.

(** [strings.ToLower] on ASCII letters; other bytes are kept. *)
Definition lower (c : ascii) : ascii :=
  let n := nat_of_ascii c in
  if (65 <=? n)%nat && (n <=? 90)%nat then ascii_of_nat (n + 32) else c.

Fixpoint ToLower (s : string) : string :=
  match s with
  | EmptyString => EmptyString
  | String c s' => String (lower c) (ToLower s')
  end.

(** [strings.TrimPrefix]. *)
Definition TrimPrefix (s prefix : string) : string :=
  if strings.HasPrefix s prefix
  then String.substring (String.length prefix)
         (String.length s - String.length prefix) s
  else s.

(** [strings.TrimSuffix]. *)
Definition TrimSuffix (s suffix : string) : string :=
  if strings.HasSuffix s suffix
  then String.substring 0 (String.length s - String.length suffix) s
  else s.

End strings_more.

(** ** The filter pipeline and the helpers of clone.go *)

Section Clone.

Context {World : Type} `{Host World} `{Packages World} `{Regexp}.

(** clone.go:222-229. Only the root is created, while the existence test
    is on the root followed by the parent folder. *)
Definition createDirIfNotExist : M World unit :=
  root <- getenv "GHORG_ABSOLUTE_PATH_TO_CLONE_TO" ;;
  parent <- get parentFolder ;;
  err <- Stat (root +:+ parent) ;;
  if IsNotExist err then
    err <- MkdirAll root ;;
    match err with
    | Some e => panic e
    | None => ret tt
    end
  else ret tt.

(** clone.go:231-237. *)
Definition repoExistsLocally (repo : Repo) : M World bool :=
  err <- Stat (HostPath repo) ;;
  if IsNotExist err then ret false else ret true.

Fixpoint print_each (p : Printer) (msgs : list string) : M World unit :=
  match msgs with
  | [] => ret tt
  | m :: rest => print p m ;; print_each p rest
  end.

(** clone.go:246-266. *)
Definition printRemainingMessages : M World unit :=
  infos <- get cloneInfos ;;
  (if (0 <? length infos)%nat then
     print Println "" ;;
     print PrintInfo "============ Info ============" ;;
     print Println "" ;;
     print_each PrintInfo infos ;;
     print Println ""
   else ret tt) ;;
  errors <- get cloneErrors ;;
  if (0 <? length errors)%nat then
    print Println "" ;;
    print PrintError "============ Issues ============" ;;
    print Println "" ;;
    print_each PrintError errors ;;
    print Println ""
  else ret tt.

(** The scanner loop of [readGhorgIgnore]. *)
Fixpoint scan_lines (texts lines : list string) : list string :=
  match texts with
  | [] => lines
  | text :: rest =>
      scan_lines rest (if negb (String.eqb text "") then lines ++ [text] else lines)
  end.

(** clone.go:268-283. *)
Definition readGhorgIgnore : M World (list string * error) :=
  e <- get env ;;
  w <- get world ;;
  emit (EvScan (GhorgIgnoreLocation e)) ;;
  match os_Scan (GhorgIgnoreLocation e) w with
  | OpenFailed err => ret ([], Some err)
  | Scanned texts err => ret (scan_lines texts [], err)
  end.

(** [regexp.MustCompile]: panics on an invalid pattern (the text of the
    panic value is shortened). *)
Definition MustCompile (pattern : string) : M World regexp :=
  match regexp_Compile pattern with
  | Some re => ret re
  | None => panic ("regexp: Compile(" +:+ pattern +:+ ")")
  end.

(** The loop of [filterByRegex]; the pattern is compiled once for every
    repository. *)
Fixpoint filterByRegex_loop (regex : string) (repos filteredRepos : list Repo)
  : M World (list Repo) :=
  match repos with
  | [] => ret filteredRepos
  | r :: rest =>
      re <- MustCompile regex ;;
      let match_ := regexp_FindString re (getAppNameFromURL (URL r)) in
      filterByRegex_loop regex rest
        (if negb (String.eqb match_ "") then filteredRepos ++ [r]
         else filteredRepos)
  end.

(** clone.go:285-298. *)
Definition filterByRegex (repos : list Repo) : M World (list Repo) :=
  regex <- getenv "GHORG_MATCH_REGEX" ;;
  filterByRegex_loop regex repos [].

(** clone.go:301-310. *)
Fixpoint getRepoCountOnly_loop (targets : list Repo) (count : nat) : nat :=
  match targets with
  | [] => count
  | t :: rest =>
      getRepoCountOnly_loop rest (if negb (IsWiki t) then S count else count)
  end.

Definition getRepoCountOnly (targets : list Repo) : nat :=
  getRepoCountOnly_loop targets 0.

Fixpoint printDryRun_loop (repos : list Repo) : M World unit :=
  match repos with
  | [] => ret tt
  | repo :: rest => print PrintSubtleInfo (URL repo) ;; printDryRun_loop rest
  end.

(** clone.go:312-319. *)
Definition printDryRun (repos : list Repo) : M World unit :=
  printDryRun_loop repos ;;
  print Println "" ;;
  let count := length repos in
  root <- getenv "GHORG_ABSOLUTE_PATH_TO_CLONE_TO" ;;
  parent <- get parentFolder ;;
  print PrintSuccess
    (strconv.Itoa count +:+ " repos to be cloned into: " +:+ root +:+ parent).

(** The inner loop of the ignore filter (clone.go:349-353). *)
Fixpoint ignore_loop (url : string) (toIgnore : list string) (flag : bool) : bool :=
  match toIgnore with
  | [] => flag
  | ignore :: rest =>
      ignore_loop url rest (if strings.Contains url ignore then true else flag)
  end.

(** The outer loop of the ignore filter (clone.go:347-358). *)
Fixpoint ignore_filter_loop (cloneTargets : list Repo) (toIgnore : list string)
    (filteredCloneTargets : list Repo) : list Repo :=
  match cloneTargets with
  | [] => filteredCloneTargets
  | cloned :: rest =>
      let flag := ignore_loop (URL cloned) toIgnore false in
      ignore_filter_loop rest toIgnore
        (if negb flag then filteredCloneTargets ++ [cloned]
         else filteredCloneTargets)
  end.

(** clone.go:325-329: the regex filter, when a pattern is set. *)
Definition regexStage (cloneTargets : list Repo) : M World (list Repo) :=
  regex <- getenv "GHORG_MATCH_REGEX" ;;
  if negb (String.eqb regex "") then
    print PrintInfo "Filtering repos down by regex that match the provided..." ;;
    print Println "" ;;
    filterByRegex cloneTargets
  else ret cloneTargets.

(** clone.go:331-362: the ignore filter, when the ignore-file exists. *)
Definition ignoreStage (cloneTargets : list Repo) : M World (list Repo) :=
  e <- get env ;;
  err <- Stat (GhorgIgnoreLocation e) ;;
  if negb (IsNotExist err) then
    r <- readGhorgIgnore ;;
    let '(toIgnore, err) := r in
    match err with
    | Some msg =>
        print PrintError "Error parsing your ghorgignore, aborting" ;;
        print Println msg ;;
        os_Exit 1
    | None =>
        print PrintInfo "Using ghorgignore, filtering repos down..." ;;
        print Println "" ;;
        ret (ignore_filter_loop cloneTargets toIgnore [])
    end
  else ret cloneTargets.

(** clone.go:325-362: the regex filter, then the ignore filter. *)
Definition filterTargets (cloneTargets : list Repo) : M World (list Repo) :=
  cloneTargets <- regexStage cloneTargets ;;
  ignoreStage cloneTargets.

(** clone.go:364-373. *)
Definition announce (cloneTargets : list Repo) : M World unit :=
  let repoCount := getRepoCountOnly cloneTargets in
  wiki <- getenv "GHORG_CLONE_WIKI" ;;
  source <- get targetCloneSource ;;
  (if String.eqb wiki "true" then
     let wikiCount := strconv.Itoa (length cloneTargets - repoCount) in
     print PrintInfo
       (strconv.Itoa repoCount +:+ " repos found in " +:+ source +:+
        ", including " +:+ wikiCount +:+ " enabled wikis")
   else
     print PrintInfo (strconv.Itoa repoCount +:+ " repos found in " +:+ source)) ;;
  print Println "".

End Clone.

(** ** Reading the log, and the decision table of the specification *)

(** A property of the state that every run of [m] leaves related to the
    state it started from. *)
Definition stable {World A : Type} (R : State World -> State World -> Prop)
    (m : M World A) : Prop :=
  forall s, R s (final (m s)).

(** What may happen before the executor starts: anything but a call of a
    [git.Gitter] method or the creation of the limiter. *)
Definition early (e : Event) : bool :=
  match e with
  | EvGit _ _ _ | EvLimiter _ => false
  | _ => true
  end.

(** Printing, [os.Stat] and reading the ignore-file change nothing on disk
    and run no version-control command. *)
Definition quiet (e : Event) : bool :=
  match e with
  | EvPrint _ _ | EvStat _ _ | EvScan _ => true
  | _ => false
  end.

(** [s] with [evs] appended to its log. *)
Definition logged {World : Type} (evs : list Event) (s : State World) : State World :=
  mkState (env s) (parentFolder s) (targetCloneSource s) (cloneInfos s)
    (cloneErrors s) (cloneCount s) (pulledCount s) (world s) (log s ++ evs).

(** The log of [s'] is the log of [s] followed by events allowed by [ok]. *)
Definition log_grows {World : Type} (ok : Event -> bool) (s s' : State World) : Prop :=
  exists evs, log s' = log s ++ evs /\ forallb ok evs = true.

(** [s'] comes after [s] with the same configuration and a log that grew
    by events allowed by [ok]. *)
Definition grows {World : Type} (ok : Event -> bool) (s s' : State World) : Prop :=
  env s' = env s /\ parentFolder s' = parentFolder s /\ log_grows ok s s'.

(** What makes the ignore-file unreadable: it cannot be opened, or the
    scanner stops on an error. *)
Definition scan_error (s : Scan) : option string :=
  match s with
  | OpenFailed err => Some err
  | Scanned _ err => err
  end.

(** Every run of [m] changes nothing but the log, which grows by events
    allowed by [ok]. *)
Definition logs_only {World A : Type} (ok : Event -> bool) (m : M World A) : Prop :=
  forall s, exists evs, final (m s) = logged evs s /\ forallb ok evs = true.

(** Every run of [m] reaches its end. *)
Definition returns {World A : Type} (m : M World A) : Prop :=
  forall s, exists a s', m s = Ret a s'.

(** The methods of a run of calls. *)
Definition ops_of (calls : list (GitOp * Repo * error)) : list GitOp :=
  map (fun c => fst (fst c)) calls.

(** The [git.Gitter] calls recorded in a log, in order. *)
Fixpoint git_calls (l : list Event) : list (GitOp * Repo * error) :=
  match l with
  | [] => []
  | EvGit op repo err :: rest => (op, repo, err) :: git_calls rest
  | _ :: rest => git_calls rest
  end.

(** The action sequences of the decision table, as the specification
    words them. *)
Definition sequence (existsLocally backup noClean branchOverride fetchAll : bool)
    : list GitOp :=
  if existsLocally then
    if backup then [UpdateRemote]
    else if noClean then [FetchAll]
    else [Checkout; Clean; Reset; Pull] ++ (if fetchAll then [FetchAll] else [])
  else
    [Clone] ++ (if branchOverride then [Checkout] else []) ++ [SetOrigin] ++
    (if fetchAll then [FetchAll] else []).

Section Steps.

Context {World : Type} `{Host World}.

(** Running a sequence of operations on [repo] in order, stopping after
    the first that fails: the calls made and the world they leave. *)
Fixpoint steps (ops : list GitOp) (repo : Repo) (w : World)
    : list (GitOp * Repo * error) * World :=
  match ops with
  | [] => ([], w)
  | op :: rest =>
      match git_run op repo w with
      | (Some e, w') => ([(op, repo, Some e)], w')
      | (None, w') =>
          let '(calls, w'') := steps rest repo w' in
          ((op, repo, None) :: calls, w'')
      end
  end.

End Steps.

(** Whether a method was called, and whether a call of it succeeded. *)
Definition same_op (a b : GitOp) : bool :=
  match a, b with
  | Clone, Clone | Reset, Reset | Pull, Pull | SetOrigin, SetOrigin
  | Clean, Clean | Checkout, Checkout | UpdateRemote, UpdateRemote
  | FetchAll, FetchAll => true
  | _, _ => false
  end.

Definition called (op : GitOp) (calls : list (GitOp * Repo * error)) : bool :=
  existsb (fun c => same_op op (fst (fst c))) calls.

Definition succeeded (op : GitOp) (calls : list (GitOp * Repo * error)) : bool :=
  existsb (fun c => same_op op (fst (fst c)) &&
                    match snd c with None => true | Some _ => false end) calls.

(** The failure of a run of calls, if it ended on one. *)
Definition failure (calls : list (GitOp * Repo * error)) : option (GitOp * string) :=
  match last calls with
  | Some (op, _, Some e) => Some (op, e)
  | _ => None
  end.

(** How the code classifies the failure that ended a run of calls: a
    failed checkout is a notice for every descriptor, and the failure of the
    first call is a notice for a wiki; every other failure is an error. *)
Definition downgraded (isWiki : bool) (calls : list (GitOp * Repo * error)) : bool :=
  match failure calls with
  | Some (Checkout, _) => true
  | Some _ => isWiki && (length calls =? 1)%nat
  | None => false
  end.

(** The destination the claim on [hostPath] composes: root, parent folder
    with the backup suffix in backup mode, preserved path when enabled and
    the app-name otherwise, and [.wiki] appended for a wiki. *)
Definition composed_hostPath (root parent sep : string) (preserve backup : bool)
    (repo : Repo) : string :=
  filepath.Join
    [root; if backup then parent +:+ "_backup" else parent; sep;
     if preserve then Path repo else getAppNameFromURL (URL repo)]
  +:+ (if IsWiki repo then ".wiki" else "").

(** ** The action resolver and the executor (clone.go:382-568) *)

Section Executor.

Context {World : Type} `{Host World} `{Packages World} `{Regexp}.

(** clone.go:400-415: the destination of [repo]. In backup mode the path is
    composed afresh from the backup folder. *)
Definition resolveHostPath (e : gmap string string) (parent appName : string)
    (repo : Repo) : Repo :=
  let path :=
    if negb (String.eqb (Path repo) "") &&
       String.eqb (Getenv e "GHORG_PRESERVE_DIRECTORY_STRUCTURE") "true"
    then Path repo else appName in
  let repo :=
    set_HostPath
      (filepath.Join [Getenv e "GHORG_ABSOLUTE_PATH_TO_CLONE_TO"; parent;
                      GetCorrectFilePathSeparator; path]) repo in
  let repo :=
    if IsWiki repo then
      if negb (strings.HasSuffix (HostPath repo) ".wiki")
      then set_HostPath (HostPath repo +:+ ".wiki") repo
      else repo
    else repo in
  if String.eqb (Getenv e "GHORG_BACKUP") "true" then
    set_HostPath
      (filepath.Join [Getenv e "GHORG_ABSOLUTE_PATH_TO_CLONE_TO";
                      parent +:+ "_backup";
                      GetCorrectFilePathSeparator; path]) repo
  else repo.

Definition wiki_notice (repo : Repo) (err : string) : string :=
  "Wiki may be enabled but there was no content to clone on Repo: " +:+
  URL repo +:+ " Error: " +:+ errv err.

Definition fetch_problem (repo : Repo) (err : string) : string :=
  "Could not fetch remotes in Repo: " +:+ URL repo +:+ " Error: " +:+ errv err.

Definition checkout_notice (branch : string) (repo : Repo) (err : string) : string :=
  "Could not checkout out " +:+ branch +:+
  ", branch may not exist, no changes made Repo: " +:+ URL repo +:+
  " Error: " +:+ errv err.

(** [if err != nil && repo.IsWiki { cloneInfos = append(...); return }]. *)
Definition wiki_guard (err : error) (repo : Repo) : M World unit :=
  match err with
  | Some e =>
      if IsWiki repo then append_cloneInfos (wiki_notice repo e) ;; return_
      else ret tt
  | None => ret tt
  end.

(** [if err != nil { cloneErrors = append(cloneErrors, e); return }]. *)
Definition error_guard (err : error) (msg : string -> string) : M World unit :=
  match err with
  | Some e => append_cloneErrors (msg e) ;; return_
  | None => ret tt
  end.

(** [if err != nil { cloneInfos = append(cloneInfos, e); return }]. *)
Definition info_guard (err : error) (msg : string -> string) : M World unit :=
  match err with
  | Some e => append_cloneInfos (msg e) ;; return_
  | None => ret tt
  end.

(** clone.go:420-434: the destination exists and backup mode is on. *)
Definition update_backup (repo : Repo) : M World string :=
  err <- git UpdateRemote repo ;;
  wiki_guard err repo ;;
  error_guard err (fun e =>
    "Could not update remotes in Repo: " +:+ URL repo +:+ " Error: " +:+ errv e) ;;
  ret "cloning".

(** clone.go:435-450: the destination exists and no-clean mode is on. *)
Definition fetch_only (repo : Repo) : M World string :=
  err <- git FetchAll repo ;;
  wiki_guard err repo ;;
  error_guard err (fetch_problem repo) ;;
  ret "fetching".

(** clone.go:452-497: the destination exists, neither mode is on. *)
Definition clean_pull (repo : Repo) : M World string :=
  err <- git Checkout repo ;;
  info_guard err (checkout_notice (CloneBranch repo) repo) ;;
  err <- git Clean repo ;;
  error_guard err (fun e =>
    "Problem running git clean: " +:+ URL repo +:+ " Error: " +:+ errv e) ;;
  err <- git Reset repo ;;
  error_guard err (fun e =>
    "Problem resetting " +:+ CloneBranch repo +:+ " Repo: " +:+ URL repo +:+
    " Error: " +:+ errv e) ;;
  err <- git Pull repo ;;
  error_guard err (fun e =>
    "Problem trying to pull " +:+ CloneBranch repo +:+ " Repo: " +:+ URL repo +:+
    " Error: " +:+ errv e) ;;
  incr_pulledCount ;;
  fetchAll <- getenv "GHORG_FETCH_ALL" ;;
  (if String.eqb fetchAll "true" then
     err <- git FetchAll repo ;;
     error_guard err (fetch_problem repo)
   else ret tt) ;;
  ret "pulling".

(** clone.go:498-547: the destination does not exist. *)
Definition clone_new (branch : string) (repo : Repo) : M World string :=
  err <- git Clone repo ;;
  wiki_guard err repo ;;
  error_guard err (fun e =>
    "Problem trying to clone Repo: " +:+ URL repo +:+ " Error: " +:+ errv e) ;;
  ghorgBranch <- getenv "GHORG_BRANCH" ;;
  (if negb (String.eqb ghorgBranch "") then
     err <- git Checkout repo ;;
     info_guard err (checkout_notice branch repo)
   else ret tt) ;;
  incr_cloneCount ;;
  err <- git SetOrigin repo ;;
  error_guard err (fun e =>
    "Problem trying to set remote on Repo: " +:+ URL repo +:+ " Error: " +:+ errv e) ;;
  fetchAll <- getenv "GHORG_FETCH_ALL" ;;
  (if String.eqb fetchAll "true" then
     err <- git FetchAll repo ;;
     error_guard err (fetch_problem repo)
   else ret tt) ;;
  ret "cloning".

(** clone.go:417-549: the actions on a descriptor whose destination is
    resolved. *)
Definition act (branch : string) (repo : Repo) : M World unit :=
  exists_ <- repoExistsLocally repo ;;
  backup <- getenv "GHORG_BACKUP" ;;
  noClean <- getenv "GHORG_NO_CLEAN" ;;
  action <-
    (if exists_ : bool then
       if String.eqb backup "true" then update_backup repo
       else if String.eqb noClean "true" then fetch_only repo
       else clean_pull repo
     else clone_new branch repo) ;;
  print PrintSuccess
    ("Success " +:+ action +:+ " repo: " +:+ URL repo +:+ " -> branch: " +:+ branch).

(** clone.go:392-550: what the loop submits to the limiter for [target]. *)
Definition job (target : Repo) : M World unit :=
  let appName := getAppNameFromURL (URL target) in
  let branch := CloneBranch target in
  body (
    e <- get env ;;
    parent <- get parentFolder ;;
    act branch (resolveHostPath e parent appName target)).

(** The destination [job] resolves for [target] in state [st], and the
    sequence of the decision table for it there. *)
Definition resolved (st : State World) (target : Repo) : Repo :=
  resolveHostPath (env st) (parentFolder st) (getAppNameFromURL (URL target)) target.

Definition planned (st : State World) (repo : Repo) : list GitOp :=
  let e := Getenv (env st) in
  sequence
    (negb (IsNotExist (os_Stat (HostPath repo) (world st))))
    (String.eqb (e "GHORG_BACKUP") "true")
    (String.eqb (e "GHORG_NO_CLEAN") "true")
    (negb (String.eqb (e "GHORG_BRANCH") ""))
    (String.eqb (e "GHORG_FETCH_ALL") "true").

(** clone.go:392-554: [limit.Execute] on every target, then [limit.Wait].
    The limiter belongs to an external library; here each job runs to its
    end when it is submitted, one at a time and in the order of the slice,
    whatever the limit is. The interleavings of concurrent jobs, and the
    unsynchronised updates of the counters and lists they share, are not
    part of this model. *)
Fixpoint runJobs (cloneTargets : list Repo) : M World unit :=
  match cloneTargets with
  | [] => ret tt
  | target :: rest => job target ;; runJobs rest
  end.

(** clone.go:556-567. *)
Definition report : M World unit :=
  printRemainingMessages ;;
  cloned <- get cloneCount ;;
  pulled <- get pulledCount ;;
  print PrintSuccess
    ("New repos cloned: " +:+ strconv.Itoa cloned +:+
     ", existing repos pulled: " +:+ strconv.Itoa pulled) ;;
  backup <- getenv "GHORG_BACKUP" ;;
  root <- getenv "GHORG_ABSOLUTE_PATH_TO_CLONE_TO" ;;
  parent <- get parentFolder ;;
  if String.eqb backup "true" then
    print Println "" ;;
    print PrintSuccess ("Finished! " +:+ root +:+ parent +:+ "_backup")
  else
    print Println "" ;;
    print PrintSuccess ("Finished! " +:+ root +:+ parent).

(** clone.go:382-388. *)
Definition concurrency : M World Z :=
  value <- getenv "GHORG_CONCURRENCY" ;;
  match strconv.Atoi value with
  | None => log_Fatal "Could not determine GHORG_CONCURRENCY"
  | Some l => ret l
  end.

(** clone.go:388-568: from the limiter to the end of the run. *)
Definition execute (l : Z) (cloneTargets : list Repo) : M World unit :=
  emit (EvLimiter l) ;;
  reset_counts ;;
  runJobs cloneTargets ;;
  report.

(** clone.go:325-380: the filters, the count, the dry-run exit and the
    creation of the root. *)
Definition preflight (cloneTargets : list Repo) : M World (list Repo) :=
  cloneTargets <- filterTargets cloneTargets ;;
  announce cloneTargets ;;
  dryRun <- getenv "GHORG_DRY_RUN" ;;
  (if String.eqb dryRun "true" then printDryRun cloneTargets ;; return_
   else ret tt) ;;
  createDirIfNotExist ;;
  ret cloneTargets.

(** clone.go:322-568. *)
Definition CloneAllRepos (cloneTargets : list Repo) : M World unit :=
  body (
    cloneTargets <- preflight cloneTargets ;;
    l <- concurrency ;;
    execute l cloneTargets).

End Executor.

(** ** The command: [cloneFunc], [setupRepoClone] and what they print *)

Section Command.

Context {World : Type} `{Host World} `{Packages World} `{Regexp}.

(** clone.go:570-577. *)
Definition asciiTime : M World unit :=
  print PrintInfo
    "
 +-+-+-+-+ +-+-+ +-+-+-+-+-+
 |T|I|M|E| |T|O| |G|H|O|R|G|
 +-+-+-+-+ +-+-+ +-+-+-+-+-+
".

(** clone.go:631-637. *)
Definition getGhorgBranch (e : gmap string string) : string :=
  if String.eqb (Getenv e "GHORG_BRANCH") "" then "default branch"
  else Getenv e "GHORG_BRANCH".

(** [if cond { colorlog.PrintInfo(msg) }]. *)
Definition info_if (cond : bool) (msg : string) : M World unit :=
  if cond then print PrintInfo msg else ret tt.

(** clone.go:580-629. *)
Definition PrintConfigs : M World unit :=
  e <- get env ;;
  w <- get world ;;
  parent <- get parentFolder ;;
  let set k := negb (String.eqb (Getenv e k) "") in
  let on k := String.eqb (Getenv e k) "true" in
  print PrintInfo "*************************************" ;;
  print PrintInfo ("* SCM           : " +:+ Getenv e "GHORG_SCM_TYPE") ;;
  print PrintInfo ("* Type          : " +:+ Getenv e "GHORG_CLONE_TYPE") ;;
  print PrintInfo ("* Protocol      : " +:+ Getenv e "GHORG_CLONE_PROTOCOL") ;;
  print PrintInfo ("* Location      : " +:+ Getenv e "GHORG_ABSOLUTE_PATH_TO_CLONE_TO") ;;
  print PrintInfo ("* Concurrency   : " +:+ Getenv e "GHORG_CONCURRENCY") ;;
  info_if (set "GHORG_BRANCH") ("* Branch        : " +:+ getGhorgBranch e) ;;
  info_if (set "GHORG_SCM_BASE_URL")
    ("* Base URL      : " +:+ Getenv e "GHORG_SCM_BASE_URL") ;;
  info_if (on "GHORG_SKIP_ARCHIVED")
    ("* Skip Archived : " +:+ Getenv e "GHORG_SKIP_ARCHIVED") ;;
  info_if (on "GHORG_SKIP_FORKS")
    ("* Skip Forks    : " +:+ Getenv e "GHORG_SKIP_FORKS") ;;
  info_if (on "GHORG_BACKUP") ("* Backup        : " +:+ Getenv e "GHORG_BACKUP") ;;
  info_if (on "GHORG_CLONE_WIKI")
    ("* Wikis         : " +:+ Getenv e "GHORG_CLONE_WIKI") ;;
  info_if (GhorgIgnoreDetected e w) "* Ghorgignore   : true" ;;
  info_if (set "GHORG_MATCH_REGEX")
    ("* Regex Match   : " +:+ Getenv e "GHORG_MATCH_REGEX") ;;
  info_if (set "GHORG_OUTPUT_DIR") ("* Output Dir    : " +:+ parent) ;;
  info_if (on "GHORG_NO_CLEAN") "* No Clean      : true" ;;
  info_if (on "GHORG_FETCH_ALL") "* Fetch All     : true" ;;
  info_if (on "GHORG_DRY_RUN") "* Dry Run       : true" ;;
  print PrintInfo ("* Config Used   : " +:+ Getenv e "GHORG_CONF") ;;
  print PrintInfo "*************************************" ;;
  print Println "".

(** clone.go:202-220. *)
Definition getCloneUrls (isOrg : bool) : M World (list Repo * error) :=
  asciiTime ;;
  PrintConfigs ;;
  scm <- getenv "GHORG_SCM_TYPE" ;;
  let scmType := strings_more.ToLower scm in
  (if (String.length scmType =? 0)%nat then
     print PrintError "GHORG_SCM_TYPE not set" ;; os_Exit 1
   else ret tt) ;;
  match scm_GetClient scmType with
  | Some err => print PrintError err ;; os_Exit 1
  | None =>
      source <- get targetCloneSource ;;
      e <- get env ;;
      w <- get world ;;
      emit (EvListRepos isOrg source) ;;
      ret (scm_GetRepos scmType isOrg source e w)
  end.

(** clone.go:194-200. *)
Definition getAllOrgCloneUrls : M World (list Repo * error) := getCloneUrls true.
Definition getAllUserCloneUrls : M World (list Repo * error) := getCloneUrls false.

(** clone.go:167-192. *)
Definition setupRepoClone : M World unit :=
  cloneType <- getenv "GHORG_CLONE_TYPE" ;;
  r <- (if String.eqb cloneType "org" then getAllOrgCloneUrls
        else if String.eqb cloneType "user" then getAllUserCloneUrls
        else print PrintError "GHORG_CLONE_TYPE not set or unsupported" ;;
             os_Exit 1) ;;
  let '(cloneTargets, err) := r in
  match err with
  | Some e =>
      print PrintError "Encountered an error, aborting" ;;
      print Println e ;;
      os_Exit 1
  | None =>
      (if (length cloneTargets =? 0)%nat then
         scm <- getenv "GHORG_SCM_TYPE" ;;
         source <- get targetCloneSource ;;
         print PrintInfo
           ("No repos found for " +:+ scm +:+ " " +:+ cloneType +:+ ": " +:+
            source +:+
            ", please verify you have sufficient permissions to clone target repos, double check spelling and try again.") ;;
         os_Exit 0
       else ret tt) ;;
      CloneAllRepos cloneTargets
  end.

(** clone.go:639-656. *)
Definition parseParentFolder (argz : list string) : M World unit :=
  body (
    outputDir <- getenv "GHORG_OUTPUT_DIR" ;;
    (if negb (String.eqb outputDir "") then set_parentFolder outputDir ;; return_
     else ret tt) ;;
    match argz with
    | [] => panic "runtime error: index out of range [0] with length 0"
    | first :: _ =>
        set_parentFolder (strings_more.ToLower first) ;;
        baseURL <- getenv "GHORG_SCM_BASE_URL" ;;
        if String.eqb first "all-groups" && negb (String.eqb baseURL "") then
          match url_Parse_Host baseURL with
          | None => return_
          | Some host =>
              let parent :=
                strings_more.TrimSuffix (strings_more.TrimPrefix host "www.") ".com" in
              set_parentFolder parent ;;
              print Println parent
          end
        else ret tt
    end).

(** [if cmd.Flags().Changed(name) { os.Setenv(variable, value) }]; [flags]
    holds the flags given on the command line with their values. *)
Definition flag_to_env (flags : gmap string string) (name variable : string)
    (value : string -> string) : M World unit :=
  match flags !! name with
  | Some v => Setenv variable (value v)
  | None => ret tt
  end.

(** clone.go:137-147. *)
Definition token_flag (flags : gmap string string) : M World unit :=
  match flags !! "token" with
  | Some v =>
      scm <- getenv "GHORG_SCM_TYPE" ;;
      if String.eqb scm "github" then Setenv "GHORG_GITHUB_TOKEN" v
      else if String.eqb scm "gitlab" then Setenv "GHORG_GITLAB_TOKEN" v
      else if String.eqb scm "bitbucket" then Setenv "GHORG_BITBUCKET_APP_PASSWORD" v
      else if String.eqb scm "gitea" then Setenv "GHORG_GITEA_TOKEN" v
      else ret tt
  | None => ret tt
  end.

(** clone.go:32-124. *)
Definition flags_to_env (flags : gmap string string) : M World unit :=
  let same (v : string) := v in
  let yes (_ : string) := "true" in
  flag_to_env flags "path" "GHORG_ABSOLUTE_PATH_TO_CLONE_TO" EnsureTrailingSlash ;;
  flag_to_env flags "protocol" "GHORG_CLONE_PROTOCOL" same ;;
  flag_to_env flags "branch" "GHORG_BRANCH" same ;;
  flag_to_env flags "bitbucket-username" "GHORG_BITBUCKET_USERNAME" same ;;
  flag_to_env flags "clone-type" "GHORG_CLONE_TYPE" strings_more.ToLower ;;
  flag_to_env flags "scm" "GHORG_SCM_TYPE" strings_more.ToLower ;;
  flag_to_env flags "base-url" "GHORG_SCM_BASE_URL" same ;;
  flag_to_env flags "concurrency" "GHORG_CONCURRENCY" same ;;
  flag_to_env flags "topics" "GHORG_TOPICS" same ;;
  flag_to_env flags "match-prefix" "GHORG_MATCH_PREFIX" same ;;
  flag_to_env flags "match-regex" "GHORG_MATCH_REGEX" same ;;
  flag_to_env flags "skip-archived" "GHORG_SKIP_ARCHIVED" yes ;;
  flag_to_env flags "no-clean" "GHORG_NO_CLEAN" yes ;;
  flag_to_env flags "fetch-all" "GHORG_FETCH_ALL" yes ;;
  flag_to_env flags "dry-run" "GHORG_DRY_RUN" yes ;;
  flag_to_env flags "clone-wiki" "GHORG_CLONE_WIKI" yes ;;
  flag_to_env flags "insecure-gitlab-client" "GHORG_INSECURE_GITLAB_CLIENT" yes ;;
  flag_to_env flags "skip-forks" "GHORG_SKIP_FORKS" yes ;;
  flag_to_env flags "preserve-dir" "GHORG_PRESERVE_DIRECTORY_STRUCTURE" yes ;;
  flag_to_env flags "backup" "GHORG_BACKUP" yes ;;
  flag_to_env flags "output-dir" "GHORG_OUTPUT_DIR" same.

(** clone.go:149-159: [VerifyTokenSet], then [VerifyConfigsSetCorrectly]. *)
Definition verify (check : gmap string string -> error) : M World unit :=
  e <- get env ;;
  match check e with
  | Some err => print PrintError err ;; os_Exit 1
  | None => ret tt
  end.

(** clone.go:32-147: the flags, the argument and the token. *)
Definition prepare (flags : gmap string string) (argz : list string)
    : M World (list string) :=
  flags_to_env flags ;;
  argz <-
    (if (length argz <? 1)%nat then
       scm <- getenv "GHORG_SCM_TYPE" ;;
       cloneType <- getenv "GHORG_CLONE_TYPE" ;;
       if String.eqb scm "github" && String.eqb cloneType "user"
       then ret (argz ++ [""])%list
       else print PrintError "You must provide an org or user to clone" ;;
            os_Exit 1
     else ret argz) ;;
  e <- get env ;;
  w <- get world ;;
  set_env (GetOrSetToken e w) ;;
  token_flag flags ;;
  ret argz.

(** clone.go:30-165. The package variable [args] is written and not read. *)
Definition cloneFunc (flags : gmap string string) (argz : list string)
    : M World unit :=
  argz <- prepare flags argz ;;
  verify VerifyTokenSet ;;
  verify VerifyConfigsSetCorrectly ;;
  parseParentFolder argz ;;
  match argz with
  | [] => panic "runtime error: index out of range [0] with length 0"
  | first :: _ =>
      set_targetCloneSource first ;;
      setupRepoClone
  end.

(** The exit status of the process once the command has run: the status
    given to [os.Exit], 2 after a panic, and 0 when the command returns. *)
Definition exit_status {A} (r : Result (State World) A) : Z :=
  match r with
  | Ret _ _ => 0
  | Stop Returned _ => 0
  | Stop (Exited code) _ => code
  | Stop (Panicked _) _ => 2
  end.

End Command.

(** ** A regular-expression engine for a fragment of Go's syntax

    Patterns of the fragment are sequences of a literal byte or [.], each
    optionally followed by one of the greedy operators [*], [+] and [?].
    The engine follows Go's leftmost-first rule: the match that starts
    earliest, and among those the one a backtracking search finds first. *)

Module Fragment.

Inductive atom := Lit (c : ascii) | Dot.

Inductive quantifier := Once | Star | Plus | Opt.

Definition compiled : Type := list (atom * quantifier).

Definition is_meta (c : ascii) : bool :=
  strings.Contains "\^$|()[]{}*+?" (String c "").

Definition atom_of (c : ascii) : option atom :=
  if Ascii.eqb c "." then Some Dot
  else if is_meta c then None
  else Some (Lit c).

(** [None] on a pattern outside the fragment, which includes every pattern
    of these bytes that Go rejects. *)
Fixpoint Compile (pattern : string) : option compiled :=
  match pattern with
  | EmptyString => Some []
  | String c rest =>
      match atom_of c with
      | None => None
      | Some a =>
          match rest with
          | String "*" rest' =>
              match rest' with
              | String "*" _ | String "+" _ | String "?" _ => None
              | _ => cons (a, Star) <$> Compile rest'
              end
          | String "+" rest' =>
              match rest' with
              | String "*" _ | String "+" _ | String "?" _ => None
              | _ => cons (a, Plus) <$> Compile rest'
              end
          | String "?" rest' =>
              match rest' with
              | String "*" _ | String "+" _ | String "?" _ => None
              | _ => cons (a, Opt) <$> Compile rest'
              end
          | _ => cons (a, Once) <$> Compile rest
          end
      end
  end.

(** [.] matches every byte but a newline. *)
Definition accepts (a : atom) (c : ascii) : bool :=
  match a with
  | Lit l => Ascii.eqb c l
  | Dot => negb (Ascii.eqb c "010")
  end.

(** The text matched by [items] at the start of [s], preferring more
    repetitions to fewer. *)
Fixpoint match_here (items : compiled) (s : string) : option string :=
  match items with
  | [] => Some ""
  | (a, q) :: rest =>
      let many :=
        fix many (s : string) : option string :=
          match s with
          | String c s' =>
              if accepts a c then
                match many s' with
                | Some m => Some (String c m)
                | None => match_here rest s
                end
              else match_here rest s
          | EmptyString => match_here rest s
          end in
      let one (k : string -> option string) : option string :=
        match s with
        | String c s' => if accepts a c then String c <$> k s' else None
        | EmptyString => None
        end in
      match q with
      | Once => one (match_here rest)
      | Star => many s
      | Plus => one many
      | Opt =>
          match one (match_here rest) with
          | Some m => Some m
          | None => match_here rest s
          end
      end
  end.

(** The leftmost match in [s], if there is one. *)
Fixpoint find (items : compiled) (s : string) : option string :=
  match match_here items s with
  | Some m => Some m
  | None =>
      match s with
      | String _ s' => find items s'
      | EmptyString => None
      end
  end.

(** [Regexp.FindString]. *)
Definition FindString (items : compiled) (s : string) : string :=
  default "" (find items s).

(** [Regexp.MatchString]: [s] contains a match of the pattern. *)
Definition MatchString (items : compiled) (s : string) : bool :=
  match find items s with
  | Some _ => true
  | None => false
  end.

End Fragment.

(** ** A scripted world

    A world for running the model on concrete inputs, in the manner of the
    mock [Gitter] of the test suite: the paths that exist, the operations
    that are scripted to fail (by method and repository URL), the errors
    [os.Stat] reports for given paths, what scanning the ignore-file gives
    and what the provider lists. A successful clone creates the
    destination. *)

Module Scripted.

Record World := mkWorld {
  present : list string;
  stat_errors : list (string * Errno);
  refused : list (GitOp * string);
  ignore_scan : Scan;
  listed : list Repo * error;
}.

Definition is_present (path : string) (w : World) : bool :=
  existsb (String.eqb path) (present w).

Definition create (path : string) (w : World) : World :=
  mkWorld (path :: present w) (stat_errors w) (refused w) (ignore_scan w)
    (listed w).

Definition stat (path : string) (w : World) : option Errno :=
  match List.find (fun pe => String.eqb path (fst pe)) (stat_errors w) with
  | Some (_, e) => Some e
  | None => if is_present path w then None else Some ENOENT
  end.

Definition run (op : GitOp) (repo : Repo) (w : World) : error * World :=
  if existsb (fun r => same_op op (fst r) && String.eqb (URL repo) (snd r))
       (refused w)
  then (Some "exit status 1", w)
  else (None, match op with Clone => create (HostPath repo) w | _ => w end).

Definition ignore_path : string := "/home/u/.config/ghorg/ghorgignore".

Definition host : Host World := {|
  os_Stat := stat;
  os_MkdirAll := fun path w => (None, create path w);
  os_Scan := fun _ w => ignore_scan w;
  git_run := run;
|}.

Definition packages : Packages World := {|
  EnsureTrailingSlash := fun s => if strings.HasSuffix s "/" then s else s +:+ "/";
  GetOrSetToken := fun e _ => e;
  VerifyTokenSet := fun e =>
    if String.eqb (Getenv e "GHORG_GITHUB_TOKEN") "" then Some "token not set"
    else None;
  VerifyConfigsSetCorrectly := fun _ => None;
  GhorgIgnoreLocation := fun _ => ignore_path;
  GhorgIgnoreDetected := fun _ w => negb (IsNotExist (stat ignore_path w));
  GetCorrectFilePathSeparator := "/";
  scm_GetClient := fun _ => None;
  scm_GetRepos := fun _ _ _ _ w => listed w;
  url_Parse_Host := fun _ => None;
|}.

Definition regexps : Regexp := {|
  regexp := Fragment.compiled;
  regexp_Compile := Fragment.Compile;
  regexp_FindString := Fragment.FindString;
|}.

(** A state at the start of [CloneAllRepos]. *)
Definition start (e : list (string * string)) (parent : string) (w : World)
    : State World :=
  mkState (list_to_map e) parent "org" [] [] 0 0 w [].

Definition root : string * string :=
  ("GHORG_ABSOLUTE_PATH_TO_CLONE_TO", "/home/u/ghorg/").

(** Nothing on disk. *)
Definition fresh : World := mkWorld [] [] [] (Scanned [] None) ([], None).

(** The repository and its wiki are on disk. *)
Definition cloned : World :=
  mkWorld ["/home/u/ghorg/org/app"; "/home/u/ghorg/org/app.wiki"] [] []
    (Scanned [] None) ([], None).

(** [w] with the given operations scripted to fail. *)
Definition refusing (r : list (GitOp * string)) (w : World) : World :=
  mkWorld (present w) (stat_errors w) r (ignore_scan w) (listed w).

(** [w] with an ignore-file whose scan gives [s]. *)
Definition ignoring (s : Scan) (w : World) : World :=
  mkWorld (ignore_path :: present w) (stat_errors w) (refused w) s (listed w).

(** [w] with a provider that lists [repos]. *)
Definition listing (repos : list Repo) (w : World) : World :=
  mkWorld (present w) (stat_errors w) (refused w) (ignore_scan w) (repos, None).

Definition app : Repo := mkRepo "https://host/org/app.git" false "master" "" "".

Definition wiki : Repo := mkRepo "https://host/org/app.wiki.git" true "master" "" "".

(** A wiki descriptor whose URL does not carry the wiki suffix, with the
    path the provider reports for it. *)
Definition pages : Repo := mkRepo "https://host/org/app.git" true "master" "group/app" "".

End Scripted.

(** ** Further readings of the log and of the code's tables *)

(** [sub] occurs in [s] as a run of consecutive bytes. *)
Definition occurs_in (sub s : string) : Prop :=
  exists pre post, s = pre +:+ sub +:+ post.

(** The paths given to [os.Stat], in order. *)
Fixpoint stat_paths (l : list Event) : list string :=
  match l with
  | [] => []
  | EvStat path _ :: rest => path :: stat_paths rest
  | _ :: rest => stat_paths rest
  end.

(** The directories given to [os.MkdirAll], in order. *)
Fixpoint mkdir_paths (l : list Event) : list string :=
  match l with
  | [] => []
  | EvMkdirAll path _ :: rest => path :: mkdir_paths rest
  | _ :: rest => mkdir_paths rest
  end.

(** The lines printed, in order. *)
Fixpoint printed (l : list Event) : list (Printer * string) :=
  match l with
  | [] => []
  | EvPrint p msg :: rest => (p, msg) :: printed rest
  | _ :: rest => printed rest
  end.

(** The word for the action in the success line (clone.go:417, 436, 485):
    the backup update keeps the initial word. *)
Definition action_label (existsLocally backup noClean : bool) : string :=
  if existsLocally then
    if backup then "cloning" else if noClean then "fetching" else "pulling"
  else "cloning".

(** The log entries of a run of calls. *)
Definition call_events (calls : list (GitOp * Repo * error)) : list Event :=
  map (fun c => EvGit (fst (fst c)) (snd (fst c)) (snd c)) calls.

(** [s] with the environment [e]. *)
Definition with_env {World : Type} (e : gmap string string) (s : State World)
    : State World :=
  mkState e (parentFolder s) (targetCloneSource s) (cloneInfos s)
    (cloneErrors s) (cloneCount s) (pulledCount s) (world s) (log s).

(** [s] with the parent folder [p]. *)
Definition with_parentFolder {World : Type} (p : string) (s : State World)
    : State World :=
  mkState (env s) p (targetCloneSource s) (cloneInfos s)
    (cloneErrors s) (cloneCount s) (pulledCount s) (world s) (log s).

Section Flags.

Context {World : Type} `{Packages World}.

(** The flags of clone.go:32-124 with the variable each one sets and the
    value it gives it from the value of the flag. *)
Definition flag_table : list (string * string * (string -> string)) :=
  let same (v : string) := v in
  let yes (_ : string) := "true" in
  [ ("path", "GHORG_ABSOLUTE_PATH_TO_CLONE_TO", EnsureTrailingSlash);
    ("protocol", "GHORG_CLONE_PROTOCOL", same);
    ("branch", "GHORG_BRANCH", same);
    ("bitbucket-username", "GHORG_BITBUCKET_USERNAME", same);
    ("clone-type", "GHORG_CLONE_TYPE", strings_more.ToLower);
    ("scm", "GHORG_SCM_TYPE", strings_more.ToLower);
    ("base-url", "GHORG_SCM_BASE_URL", same);
    ("concurrency", "GHORG_CONCURRENCY", same);
    ("topics", "GHORG_TOPICS", same);
    ("match-prefix", "GHORG_MATCH_PREFIX", same);
    ("match-regex", "GHORG_MATCH_REGEX", same);
    ("skip-archived", "GHORG_SKIP_ARCHIVED", yes);
    ("no-clean", "GHORG_NO_CLEAN", yes);
    ("fetch-all", "GHORG_FETCH_ALL", yes);
    ("dry-run", "GHORG_DRY_RUN", yes);
    ("clone-wiki", "GHORG_CLONE_WIKI", yes);
    ("insecure-gitlab-client", "GHORG_INSECURE_GITLAB_CLIENT", yes);
    ("skip-forks", "GHORG_SKIP_FORKS", yes);
    ("preserve-dir", "GHORG_PRESERVE_DIRECTORY_STRUCTURE", yes);
    ("backup", "GHORG_BACKUP", yes);
    ("output-dir", "GHORG_OUTPUT_DIR", same) ].

Definition apply_flag (flags : gmap string string)
    (e : gmap string string) (row : string * string * (string -> string))
    : gmap string string :=
  match flags !! fst (fst row) with
  | Some v => <[snd (fst row) := snd row v]> e
  | None => e
  end.

End Flags.

(** The lines [printRemainingMessages] prints for one of the two lists. *)
Definition banner_block (p : Printer) (title : string) (msgs : list string)
    : list Event :=
  match msgs with
  | [] => []
  | _ :: _ =>
      [EvPrint Println ""; EvPrint p title; EvPrint Println ""] ++
      map (EvPrint p) msgs ++ [EvPrint Println ""]
  end.

(** An event that is a printed line. *)
Definition printing (e : Event) : bool :=
  match e with
  | EvPrint _ _ => true
  | _ => false
  end.

(** * Properties *)

(** * Go's strings, paths and numbers on samples *)

Example Split_sample : strings.Split "a,b,,c" "," = ["a"; "b"; ""; "c"].
Proof. reflexivity. Qed.

Example Join_sample :
  filepath.Join ["/home/u/ghorg/"; "org"; "/"; "app"] = "/home/u/ghorg/org/app".
Proof. reflexivity. Qed.

Example Clean_sample : filepath.Clean "a//b/./c/../d/" = "a/b/d".
Proof. reflexivity. Qed.

Example Atoi_samples :
  strconv.Atoi "25" = Some 25%Z /\ strconv.Atoi "-3" = Some (-3)%Z /\
  strconv.Atoi "" = None /\ strconv.Atoi "1.5" = None /\
  strconv.Atoi "9223372036854775808" = None.
Proof. repeat split. Qed.

Example getAppNameFromURL_git :
  getAppNameFromURL "https://host/org/app.git" = "app".
Proof. reflexivity. Qed.

Example getAppNameFromURL_wiki :
  getAppNameFromURL "https://host/org/app.wiki.git" = "app.wiki".
Proof. reflexivity. Qed.

Example FindString_samples :
  option_map (fun re => Fragment.FindString re "app") (Fragment.Compile "p+")
    = Some "pp" /\
  option_map (fun re => Fragment.FindString re "abc") (Fragment.Compile "b*")
    = Some "" /\
  Fragment.Compile "a**" = None.
Proof. repeat split. Qed.

(** * Strings *)

Section Split.

Variable c : ascii.

Lemma Split_from_cons (sep : string) (k : nat) (s : string) :
  exists piece pieces, strings.Split_from sep k s = piece :: pieces.
Proof.
  revert k. induction s as [|a s IH]; intros k; simpl.
  - eauto.
  - destruct k as [|k]; [|apply IH].
    match goal with |- context [if ?b then _ else _] => destruct b end; [eauto|].
    destruct (IH 0) as (p & ps & ->). eauto.
Qed.

Lemma Split_byte_cons (a : ascii) (s : string) :
  strings.Split (String a s) (String c "") =
    if Ascii.eqb a c then "" :: strings.Split s (String c "")
    else match strings.Split s (String c "") with
         | piece :: pieces => String a piece :: pieces
         | [] => [String a ""]
         end.
Proof.
  unfold strings.Split. simpl.
  destruct (Ascii.eqb a c); simpl; [|reflexivity].
  destruct s; reflexivity.
Qed.

Lemma Split_byte_free (s : string) :
  strings.free_of c s = true -> strings.Split s (String c "") = [s].
Proof.
  induction s as [|a s IH]; [reflexivity|].
  intros H. simpl in H. apply andb_true_iff in H as [Ha Hs].
  rewrite Split_byte_cons. apply negb_true_iff in Ha. rewrite Ha, (IH Hs).
  reflexivity.
Qed.

Lemma Split_byte_app (s1 s2 : string) :
  strings.Split (s1 +:+ String c s2) (String c "") =
    (strings.Split s1 (String c "") ++ strings.Split s2 (String c ""))%list.
Proof.
  induction s1 as [|a s1 IH].
  - change (strings.Split (String c s2) (String c "") =
            ([""] ++ strings.Split s2 (String c ""))%list).
    rewrite Split_byte_cons, Ascii.eqb_refl. reflexivity.
  - change (String a s1 +:+ String c s2) with (String a (s1 +:+ String c s2)).
    rewrite !Split_byte_cons, IH.
    destruct (Ascii.eqb a c); [reflexivity|].
    destruct (Split_from_cons (String c "") 0 s1) as (p & ps & Hp).
    unfold strings.Split in *. rewrite Hp. reflexivity.
Qed.

Lemma Join_Split_byte (s : string) :
  strings.Join (strings.Split s (String c "")) (String c "") = s.
Proof.
  induction s as [|a s IH]; [reflexivity|].
  rewrite Split_byte_cons.
  destruct (Split_from_cons (String c "") 0 s) as (p & ps & Hp).
  unfold strings.Split in *. rewrite Hp in *.
  destruct (Ascii.eqb_spec a c) as [->|_].
  - change (strings.Join ("" :: p :: ps) (String c ""))
      with (String c (strings.Join (p :: ps) (String c ""))).
    now rewrite IH.
  - destruct ps as [|q ps]; rewrite <- IH; reflexivity.
Qed.

End Split.

Lemma getAppNameFromURL_segment (dir seg : string) :
  strings.free_of "/" seg = true ->
  getAppNameFromURL (dir +:+ "/" +:+ seg) = getAppNameFromURL seg.
Proof.
  intros Hseg. unfold getAppNameFromURL.
  change (dir +:+ "/" +:+ seg) with (dir +:+ String "/" seg).
  rewrite Split_byte_app, (Split_byte_free _ _ Hseg).
  now rewrite last_snoc.
Qed.

Lemma free_of_app (c : ascii) (s t : string) :
  strings.free_of c (s +:+ t) = strings.free_of c s && strings.free_of c t.
Proof.
  induction s as [|a s IH]; [reflexivity|].
  simpl. rewrite IH. now rewrite andb_assoc.
Qed.

Lemma free_of_slash_dotted (base ext : string) :
  strings.free_of "/" base = true ->
  strings.free_of "/" ext = true ->
  strings.free_of "/" (base +:+ "." +:+ ext) = true.
Proof.
  intros Hb He. rewrite free_of_app, Hb.
  change (strings.free_of "/" ("." +:+ ext)) with (strings.free_of "/" ext).
  now rewrite He.
Qed.

Lemma appName_of_segment (base ext : string) :
  strings.free_of "/" base = true ->
  strings.free_of "/" ext = true ->
  strings.free_of "." ext = true ->
  getAppNameFromURL (base +:+ "." +:+ ext) = base.
Proof.
  intros Hb He Hd. unfold getAppNameFromURL.
  rewrite (Split_byte_free "/") by now apply free_of_slash_dotted.
  simpl last. simpl default.
  change (base +:+ "." +:+ ext) with (base +:+ String "." ext).
  rewrite Split_byte_app, (Split_byte_free "." ext Hd).
  rewrite length_app, Nat.add_sub, take_app_length.
  apply Join_Split_byte.
Qed.

Lemma appName_of_plain_segment (seg : string) :
  strings.free_of "/" seg = true ->
  strings.free_of "." seg = true ->
  getAppNameFromURL seg = "".
Proof.
  intros Hs Hd. unfold getAppNameFromURL.
  rewrite (Split_byte_free "/" seg Hs). simpl last. simpl default.
  now rewrite (Split_byte_free "." seg Hd).
Qed.

(** C9 (amended): the derived app-name is the last path segment of the URL
    without its final dot-extension; when the last segment contains no dot,
    the derived app-name is the empty string. *)
Theorem getAppNameFromURL_extension (dir base ext : string) :
  strings.free_of "/" base = true ->
  strings.free_of "/" ext = true ->
  strings.free_of "." ext = true ->
  getAppNameFromURL (dir +:+ "/" +:+ base +:+ "." +:+ ext) = base /\
  getAppNameFromURL (dir +:+ "/" +:+ ext) = "".
Proof.
  intros Hb He Hd. split.
  - rewrite getAppNameFromURL_segment.
    + now apply appName_of_segment.
    + now apply free_of_slash_dotted.
  - rewrite getAppNameFromURL_segment by assumption.
    now apply appName_of_plain_segment.
Qed.

(** The derivation on a clone URL, and on a URL without extension. *)
Lemma getAppNameFromURL_extension_witness :
  getAppNameFromURL "https://host/org/app.git" = "app" /\
  getAppNameFromURL "https://host/org/git" = "".
Proof.
  apply (getAppNameFromURL_extension "https://host/org" "app" "git"); reflexivity.
Defined.

(** C9, as stated, fails on a URL whose last segment has no dot: the
    derived name is empty, not the segment. *)
Lemma getAppNameFromURL_no_dot_counterexample :
  strings.free_of "." "app" = true /\
  getAppNameFromURL "https://host/org/app" = "" /\
  getAppNameFromURL "https://host/org/app" <> "app".
Proof. split; [reflexivity | split; [reflexivity | discriminate]]. Qed.

Ltac unfold_act :=
  unfold act, update_backup, fetch_only, clean_pull, clone_new,
    repoExistsLocally, wiki_guard, error_guard, info_guard, Stat, git,
    print, emit, getenv, append_cloneInfos, append_cloneErrors,
    incr_cloneCount, incr_pulledCount, set_world, body, bind, ret, get,
    modify, stop.

Ltac step_act :=
  match goal with
  | |- context [git_run ?op ?r ?w] =>
      let e := fresh "e" in let w' := fresh "w" in let E := fresh "E" in
      destruct (git_run op r w) as [[e|] w'] eqn:E; cbn
  | |- context [if String.eqb ?a ?b then _ else _] =>
      let E := fresh "E" in destruct (String.eqb a b) eqn:E; cbn
  | |- context [if negb (String.eqb ?a ?b) then _ else _] =>
      let E := fresh "E" in destruct (String.eqb a b) eqn:E; cbn
  | |- context [if IsNotExist ?a then _ else _] =>
      let E := fresh "E" in destruct (IsNotExist a) eqn:E; cbn
  | |- context [if negb (IsNotExist ?a) then _ else _] =>
      let E := fresh "E" in destruct (IsNotExist a) eqn:E; cbn
  | |- context [if IsWiki ?a then _ else _] =>
      let E := fresh "E" in destruct (IsWiki a) eqn:E; cbn
  end.

Lemma git_calls_app (l1 l2 : list Event) :
  git_calls (l1 ++ l2) = git_calls l1 ++ git_calls l2.
Proof.
  induction l1 as [|[] l1 IH]; cbn; congruence.
Qed.

Lemma IsNotExist_ENOENT (err : option Errno) :
  IsNotExist err = true <-> err = Some ENOENT.
Proof. destruct err as [[]|]; cbn; split; congruence. Qed.

Lemma resolveHostPath_IsWiki `{Packages World} e parent appName repo :
  IsWiki (resolveHostPath e parent appName repo) = IsWiki repo.
Proof.
  unfold resolveHostPath.
  repeat match goal with |- context [if ?b then _ else _] => destruct b end;
    reflexivity.
Qed.

Lemma resolveHostPath_URL `{Packages World} e parent appName repo :
  URL (resolveHostPath e parent appName repo) = URL repo.
Proof.
  unfold resolveHostPath.
  repeat match goal with |- context [if ?b then _ else _] => destruct b end;
    reflexivity.
Qed.

Section Steps_facts.

Context {World : Type} `{Host World}.

Lemma steps_repo ops repo (w : World) :
  Forall (fun c => snd (fst c) = repo) (fst (steps ops repo w)).
Proof.
  revert w. induction ops as [|op ops IH]; intros w; cbn; [constructor|].
  destruct (git_run op repo w) as [[e|] w1]; cbn.
  - repeat constructor.
  - specialize (IH w1). destruct (steps ops repo w1). cbn in *.
    constructor; [reflexivity | assumption].
Qed.

Lemma steps_head ops repo (w : World) :
  head (ops_of (fst (steps ops repo w))) = head ops.
Proof.
  destruct ops as [|op ops]; cbn; [reflexivity|].
  destruct (git_run op repo w) as [[e|] w1]; cbn; [reflexivity|].
  destruct (steps ops repo w1); reflexivity.
Qed.

Lemma steps_called op ops repo (w : World) :
  called op (fst (steps ops repo w)) = true -> existsb (same_op op) ops = true.
Proof.
  revert w. induction ops as [|op' ops IH]; intros w; cbn; [congruence|].
  destruct (git_run op' repo w) as [[e|] w1]; cbn.
  - rewrite orb_false_r. intros ->. reflexivity.
  - specialize (IH w1). destruct (steps ops repo w1). cbn in *.
    intros [->|Hc]%orb_true_iff; [reflexivity|].
    rewrite (IH Hc). apply orb_true_r.
Qed.

Lemma steps_prefix ops repo (w : World) :
  ops_of (fst (steps ops repo w)) `prefix_of` ops.
Proof.
  revert w. induction ops as [|op ops IH]; intros w; cbn; [reflexivity|].
  destruct (git_run op repo w) as [[e|] w1]; cbn.
  - apply prefix_cons, prefix_nil.
  - specialize (IH w1). destruct (steps ops repo w1). cbn in *.
    now apply prefix_cons.
Qed.

Lemma steps_complete ops repo (w : World) :
  failure (fst (steps ops repo w)) = None ->
  ops_of (fst (steps ops repo w)) = ops.
Proof.
  revert w. induction ops as [|op ops IH]; intros w; cbn; [reflexivity|].
  destruct (git_run op repo w) as [[e|] w1]; cbn; [discriminate|].
  specialize (IH w1). destruct (steps ops repo w1) as [calls w2]. cbn in *.
  intros Hlast. f_equal. apply IH.
  destruct calls as [|c calls]; [reflexivity | exact Hlast].
Qed.

Lemma succeeded_called op (calls : list (GitOp * Repo * error)) :
  succeeded op calls = true -> called op calls = true.
Proof.
  unfold succeeded, called. induction calls as [|c calls IH]; cbn; [congruence|].
  intros [[Hop _]%andb_true_iff|Hc]%orb_true_iff; apply orb_true_iff.
  - now left.
  - right. exact (IH Hc).
Qed.

End Steps_facts.

Section Jobs.

Context {World : Type} `{Host World} `{Packages World} `{Regexp}.

Lemma act_run (branch : string) (repo : Repo) (st : State World) calls w' :
  steps (planned st repo) repo (world st) = (calls, w') ->
  exists st',
    body (act branch repo) st = Ret tt st' /\
    world st' = w' /\
    env st' = env st /\
    parentFolder st' = parentFolder st /\
    git_calls (log st') = git_calls (log st) ++ calls /\
    cloneCount st' = (cloneCount st + if called SetOrigin calls then 1 else 0)%nat /\
    pulledCount st' = (pulledCount st + if succeeded Pull calls then 1 else 0)%nat /\
    match failure calls with
    | None => cloneInfos st' = cloneInfos st /\ cloneErrors st' = cloneErrors st
    | Some _ =>
        exists msg,
          if downgraded (IsWiki repo) calls
          then cloneInfos st' = cloneInfos st ++ [msg] /\ cloneErrors st' = cloneErrors st
          else cloneInfos st' = cloneInfos st /\ cloneErrors st' = cloneErrors st ++ [msg]
    end.
Proof.
  intros Hsteps. destruct st. unfold planned, sequence in Hsteps.
  cbn in Hsteps. unfold_act. cbn.
  repeat first
    [ match goal with
      | E : String.eqb _ _ = _ |- _ => rewrite E; cbn
      | E : IsNotExist _ = _ |- _ => rewrite E; cbn
      end
    | match type of Hsteps with
      | context [String.eqb ?a ?b] =>
          let E := fresh "E" in destruct (String.eqb a b) eqn:E; cbn in Hsteps; cbn
      | context [IsNotExist ?a] =>
          let E := fresh "E" in destruct (IsNotExist a) eqn:E; cbn in Hsteps; cbn
      | context [git_run ?op ?r ?w] =>
          let E := fresh "E" in
          destruct (git_run op r w) as [[?|] ?] eqn:E; cbn in Hsteps; cbn
      end ].
  all: injection Hsteps as <- <-.
  all: try destruct (IsWiki repo) eqn:Ewiki; cbn.
  all: eexists; (split; [reflexivity|]); cbn;
    rewrite ?git_calls_app; cbn; rewrite <- ?app_assoc; cbn;
    rewrite ?Nat.add_0_r, ?Nat.add_1_r;
    unfold downgraded; cbn.
  all: try (repeat split; try reflexivity; eauto; fail).
Qed.


Lemma job_act (target : Repo) (st : State World) :
  job target st = body (act (CloneBranch target) (resolved st target)) st.
Proof. reflexivity. Qed.

(** What a job leaves, in terms of the calls of its planned sequence. *)
Lemma job_run (target : Repo) (st : State World) calls w' :
  steps (planned st (resolved st target)) (resolved st target) (world st)
    = (calls, w') ->
  exists st',
    job target st = Ret tt st' /\
    world st' = w' /\
    env st' = env st /\
    parentFolder st' = parentFolder st /\
    git_calls (log st') = git_calls (log st) ++ calls /\
    cloneCount st' = (cloneCount st + if called SetOrigin calls then 1 else 0)%nat /\
    pulledCount st' = (pulledCount st + if succeeded Pull calls then 1 else 0)%nat /\
    match failure calls with
    | None => cloneInfos st' = cloneInfos st /\ cloneErrors st' = cloneErrors st
    | Some _ =>
        exists msg,
          if downgraded (IsWiki target) calls
          then cloneInfos st' = cloneInfos st ++ [msg] /\ cloneErrors st' = cloneErrors st
          else cloneInfos st' = cloneInfos st /\ cloneErrors st' = cloneErrors st ++ [msg]
    end.
Proof.
  intros Hsteps. rewrite job_act.
  destruct (act_run (CloneBranch target) _ _ _ _ Hsteps) as (st' & Hst').
  exists st'. unfold resolved in Hst' at 2.
  now rewrite resolveHostPath_IsWiki in Hst'.
Qed.

(** C5: for a non-wiki descriptor whose destination exists, with backup and
    no-clean off, the job calls checkout, clean, reset, pull and, when
    fetch-all is on, fetch-all, in that order and stopping after the first
    failure; the job always returns, so the run goes on with the next
    descriptor; a failed checkout leaves one notice, any other failure one
    error, and [pulledCount] grows by one exactly when the pull succeeded. *)
Theorem clean_pull_in_order (target : Repo) (st : State World) calls w' :
  let repo := resolved st target in
  IsWiki target = false ->
  os_Stat (HostPath repo) (world st) <> Some ENOENT ->
  Getenv (env st) "GHORG_BACKUP" <> "true" ->
  Getenv (env st) "GHORG_NO_CLEAN" <> "true" ->
  steps ([Checkout; Clean; Reset; Pull] ++
         if String.eqb (Getenv (env st) "GHORG_FETCH_ALL") "true"
         then [FetchAll] else [])
    repo (world st) = (calls, w') ->
  exists st',
    job target st = Ret tt st' /\
    (forall rest, runJobs (target :: rest) st = runJobs rest st') /\
    git_calls (log st') = git_calls (log st) ++ calls /\
    ops_of calls `prefix_of`
      [Checkout; Clean; Reset; Pull] ++
      (if String.eqb (Getenv (env st) "GHORG_FETCH_ALL") "true"
       then [FetchAll] else []) /\
    world st' = w' /\
    pulledCount st' = (pulledCount st + if succeeded Pull calls then 1 else 0)%nat /\
    cloneCount st' = cloneCount st /\
    match failure calls with
    | None =>
        ops_of calls =
          [Checkout; Clean; Reset; Pull] ++
          (if String.eqb (Getenv (env st) "GHORG_FETCH_ALL") "true"
           then [FetchAll] else []) /\
        cloneInfos st' = cloneInfos st /\ cloneErrors st' = cloneErrors st
    | Some (Checkout, _) =>
        cloneErrors st' = cloneErrors st /\
        exists msg, cloneInfos st' = cloneInfos st ++ [msg]
    | Some _ =>
        cloneInfos st' = cloneInfos st /\
        exists msg, cloneErrors st' = cloneErrors st ++ [msg]
    end.
Proof.
  intros repo Hwiki Hstat Hbackup Hclean Hsteps.
  assert (Hplan : planned st repo =
                  [Checkout; Clean; Reset; Pull] ++
                  if String.eqb (Getenv (env st) "GHORG_FETCH_ALL") "true"
                  then [FetchAll] else []).
  { unfold planned, sequence.
    destruct (IsNotExist _) eqn:E; [now apply IsNotExist_ENOENT in E|].
    apply String.eqb_neq in Hbackup, Hclean. now rewrite Hbackup, Hclean. }
  destruct (job_run target st calls w') as
    (st' & Hjob & Hw & _ & _ & Hlog & Hcc & Hpc & Hmsg).
  { fold repo. now rewrite Hplan. }
  assert (Hcalls : calls = fst (steps (planned st repo) repo (world st)))
    by (rewrite Hplan, Hsteps; reflexivity).
  exists st'. split; [exact Hjob|]. split; [|split; [exact Hlog|]].
  { intros rest. cbn [runJobs]. unfold bind at 1. now rewrite Hjob. }
  split; [rewrite Hcalls, <- Hplan; apply steps_prefix|].
  split; [exact Hw|]. split; [exact Hpc|]. split.
  - rewrite Hcc. destruct (called SetOrigin calls) eqn:Hc; [|lia].
    rewrite Hcalls in Hc. apply steps_called in Hc. rewrite Hplan in Hc.
    destruct (String.eqb _ _) in Hc; discriminate.
  - unfold downgraded in Hmsg. rewrite Hwiki in Hmsg.
    destruct (failure calls) as [[[] e]|] eqn:Hfail; cbn in Hmsg;
      try (destruct Hmsg as (msg & ? & ?); eauto; fail).
    split; [|exact Hmsg].
    rewrite <- Hplan, Hcalls. apply steps_complete. now rewrite <- Hcalls.
Qed.

(** C10: [repoExistsLocally] is false only when [os.Stat] on the resolved
    destination fails with "does not exist"; on every other outcome,
    permission and I/O errors included, the job takes the branch of an
    existing destination (update-remote, fetch-all or checkout first) and
    never calls clone. *)
Theorem repoExistsLocally_routes (target : Repo) (st : State World) :
  let repo := resolved st target in
  let err := os_Stat (HostPath repo) (world st) in
  let e := Getenv (env st) in
  (exists st1, repoExistsLocally repo st = Ret (negb (IsNotExist err)) st1 /\
               world st1 = world st) /\
  (negb (IsNotExist err) = false <-> err = Some ENOENT) /\
  exists st' calls,
    job target st = Ret tt st' /\
    git_calls (log st') = git_calls (log st) ++ calls /\
    if negb (IsNotExist err)
    then called Clone calls = false /\
         head (ops_of calls) =
           Some (if String.eqb (e "GHORG_BACKUP") "true" then UpdateRemote
                 else if String.eqb (e "GHORG_NO_CLEAN") "true" then FetchAll
                 else Checkout)
    else head (ops_of calls) = Some Clone.
Proof.
  intros repo err e. split; [|split].
  - unfold repoExistsLocally, Stat, bind, get, emit, modify, ret. cbn.
    fold err. destruct (IsNotExist err); cbn; eauto.
  - rewrite negb_false_iff. apply IsNotExist_ENOENT.
  - destruct (steps (planned st repo) repo (world st)) as [calls w'] eqn:Hsteps.
    destruct (job_run target st calls w' Hsteps) as
      (st' & Hjob & _ & _ & _ & Hlog & _).
    exists st', calls. split; [assumption|]. split; [assumption|].
    assert (Hcalls : calls = fst (steps (planned st repo) repo (world st)))
      by now rewrite Hsteps.
    rewrite Hcalls, steps_head. unfold planned, sequence. fold repo err e.
    destruct (negb (IsNotExist err)).
    + split.
      * destruct (called Clone _) eqn:Hc; [|reflexivity].
        apply steps_called in Hc. revert Hc. unfold planned, sequence.
        fold repo err e.
        repeat match goal with |- context [if ?b then _ else _] => destruct b end;
          cbn; congruence.
      * repeat match goal with |- context [if ?b then _ else _] => destruct b end;
          reflexivity.
    + reflexivity.
Qed.

(** C1 (amended): for a wiki descriptor, the failure of the first operation
    of its sequence (clone, update-remote in backup mode, fetch-all in
    no-clean mode, checkout otherwise) and the failure of a checkout are
    recorded as a notice and not as an error; the failure of a later
    operation other than checkout (clean, reset, pull, set-origin, fetch-all
    after a clone or a pull) is recorded as an error. *)
Theorem wiki_failure_classified (target : Repo) (st : State World) calls w' :
  IsWiki target = true ->
  steps (planned st (resolved st target)) (resolved st target) (world st)
    = (calls, w') ->
  exists st',
    job target st = Ret tt st' /\
    git_calls (log st') = git_calls (log st) ++ calls /\
    forall op e, failure calls = Some (op, e) ->
      if (length calls =? 1)%nat || same_op op Checkout
      then cloneErrors st' = cloneErrors st /\
           exists msg, cloneInfos st' = cloneInfos st ++ [msg]
      else cloneInfos st' = cloneInfos st /\
           exists msg, cloneErrors st' = cloneErrors st ++ [msg].
Proof.
  intros Hwiki Hsteps.
  destruct (job_run target st calls w' Hsteps) as
    (st' & Hjob & _ & _ & _ & Hlog & _ & _ & Hmsg).
  exists st'. split; [assumption|]. split; [assumption|].
  intros op e Hfail. unfold downgraded in Hmsg. rewrite Hfail, Hwiki in Hmsg.
  destruct Hmsg as (msg & Hmsg).
  destruct op, (length calls =? 1)%nat; cbn in *; destruct Hmsg; eauto.
Qed.

Lemma substring_all (t : string) : String.substring 0 (String.length t) t = t.
Proof. induction t as [|c t IH]; simpl; [reflexivity | now rewrite IH]. Qed.

Lemma substring_app (s t : string) :
  String.substring (String.length s) (String.length t) (s +:+ t) = t.
Proof. induction s as [|c s IH]; simpl; [apply substring_all | exact IH]. Qed.

Lemma HasSuffix_app (s t : string) : strings.HasSuffix (s +:+ t) t = true.
Proof.
  unfold strings.HasSuffix.
  assert (Hlen : String.length (s +:+ t) = (String.length s + String.length t)%nat).
  { induction s as [|c s IH]; [reflexivity|].
    change (S (String.length (s +:+ t)) = S (String.length s + String.length t)).
    now rewrite IH. }
  rewrite Hlen, Nat.add_sub, substring_app, String.eqb_refl.
  rewrite andb_true_r. apply Nat.leb_le. lia.
Qed.

(** C4 (amended): the destination is the join of the root, the parent
    folder and the path, where the path is the preserved path when
    preservation is on and the descriptor has one, and the app-name
    otherwise; outside backup mode a wiki gets the [.wiki] suffix unless
    the join already ends with it, so that its destination always ends in
    [.wiki]; in backup mode the parent folder carries the [_backup] suffix
    (stated for descriptors that are not wikis). The job resolves the
    destination once: every operation it calls is given that destination. *)
Theorem hostPath_composition (target : Repo) (st : State World) :
  let e := Getenv (env st) in
  let root := e "GHORG_ABSOLUTE_PATH_TO_CLONE_TO" in
  let path :=
    if negb (String.eqb (Path target) "") &&
       String.eqb (e "GHORG_PRESERVE_DIRECTORY_STRUCTURE") "true"
    then Path target else getAppNameFromURL (URL target) in
  let plain :=
    filepath.Join [root; parentFolder st; GetCorrectFilePathSeparator; path] in
  let repo := resolved st target in
  (e "GHORG_BACKUP" <> "true" ->
     HostPath repo =
       (if IsWiki target && negb (strings.HasSuffix plain ".wiki")
        then plain +:+ ".wiki" else plain) /\
     (IsWiki target = true -> strings.HasSuffix (HostPath repo) ".wiki" = true)) /\
  (e "GHORG_BACKUP" = "true" -> IsWiki target = false ->
     HostPath repo =
       filepath.Join [root; parentFolder st +:+ "_backup";
                      GetCorrectFilePathSeparator; path]) /\
  exists st',
    job target st = Ret tt st' /\
    Forall (fun c => snd (fst c) = repo)
      (drop (length (git_calls (log st))) (git_calls (log st'))).
Proof.
  intros e root path plain repo. split; [|split].
  - intros Hb. apply String.eqb_neq in Hb.
    assert (Hp : HostPath repo =
       (if IsWiki target && negb (strings.HasSuffix plain ".wiki")
        then plain +:+ ".wiki" else plain)).
    { unfold repo, resolved, resolveHostPath. fold e. rewrite Hb.
      fold root path plain. clearbody plain.
      destruct target as [u [] b p h]; cbn; [|reflexivity].
      destruct (strings.HasSuffix plain ".wiki"); reflexivity. }
    split; [exact Hp|]. intros Hw. rewrite Hp, Hw. clearbody plain.
    destruct (strings.HasSuffix plain ".wiki") eqn:Hs; cbn [andb negb];
      [exact Hs | apply HasSuffix_app].
  - intros Hb Hw. apply String.eqb_eq in Hb.
    unfold repo, resolved, resolveHostPath. fold e. rewrite Hb.
    destruct target; reflexivity.
  - destruct (steps (planned st repo) repo (world st)) as [calls w'] eqn:Hsteps.
    destruct (job_run target st calls w' Hsteps) as
      (st' & Hjob & _ & _ & _ & Hlog & _).
    exists st'. split; [assumption|].
    rewrite Hlog, drop_app_length.
    replace calls with (fst (steps (planned st repo) repo (world st)))
      by now rewrite Hsteps.
    apply steps_repo.
Qed.

(** The counters and the two lists after one job. *)
Lemma act_counts (branch : string) (repo : Repo) (st : State World) :
  exists st',
    body (act branch repo) st = Ret tt st' /\
    env st' = env st /\
    parentFolder st' = parentFolder st /\
    let c := (cloneCount st + pulledCount st)%nat in
    let c' := (cloneCount st' + pulledCount st')%nat in
    let m := (length (cloneInfos st) + length (cloneErrors st))%nat in
    let m' := (length (cloneInfos st') + length (cloneErrors st'))%nat in
    (c <= c' <= c + 1)%nat /\ (m <= m' <= m + 1)%nat /\
    (Getenv (env st) "GHORG_BACKUP" <> "true" ->
     Getenv (env st) "GHORG_NO_CLEAN" <> "true" ->
     (c + m + 1 <= c' + m')%nat).
Proof.
  destruct st. unfold_act. cbn.
  repeat step_act.
  all: eexists; (split; [reflexivity|]); cbn; rewrite ?length_app; cbn.
  all: repeat split; try lia.
  all: intros Hb Hc; exfalso.
  all: repeat match goal with
       | E : String.eqb _ _ = true |- _ => apply String.eqb_eq in E
       end; congruence.
Qed.

End Jobs.

(** * The log *)

Section Logs.

Context {World : Type}.

Lemma logged_nil (s : State World) : logged [] s = s.
Proof. destruct s. unfold logged. cbn. now rewrite app_nil_r. Qed.

Lemma logged_logged (evs1 evs2 : list Event) (s : State World) :
  logged evs2 (logged evs1 s) = logged (evs1 ++ evs2) s.
Proof. unfold logged. cbn. now rewrite app_assoc. Qed.

Lemma logs_only_ret {A} ok (a : A) : logs_only (World := World) ok (ret a).
Proof. intros s. exists []. now rewrite logged_nil. Qed.

Lemma logs_only_stop {A} ok why : logs_only (World := World) (A := A) ok (stop why).
Proof. intros s. exists []. now rewrite logged_nil. Qed.

Lemma logs_only_get {A} ok (f : State World -> A) : logs_only ok (get f).
Proof. intros s. exists []. now rewrite logged_nil. Qed.

Lemma logs_only_emit ok (e : Event) : ok e = true -> logs_only (World := World) ok (emit e).
Proof. intros He s. exists [e]. cbn. now rewrite He. Qed.

Lemma logs_only_bind {A B} ok (m : M World A) (k : A -> M World B) :
  logs_only ok m -> (forall a, logs_only ok (k a)) -> logs_only ok (bind m k).
Proof.
  intros Hm Hk s. unfold bind. destruct (Hm s) as (evs1 & H1 & Hok1).
  destruct (m s) as [a s1|why s1]; cbn in H1; subst s1.
  - destruct (Hk a (logged evs1 s)) as (evs2 & H2 & Hok2).
    exists (evs1 ++ evs2). rewrite H2, logged_logged, forallb_app, Hok1, Hok2.
    now split.
  - now exists evs1.
Qed.

Lemma logs_only_body ok (m : M World unit) : logs_only ok m -> logs_only ok (body m).
Proof.
  intros Hm s. unfold body. destruct (Hm s) as (evs & H1 & Hok).
  exists evs. split; [|assumption].
  destruct (m s) as [a s1|[] s1]; exact H1.
Qed.

Lemma logs_only_weaken {A} (ok ok' : Event -> bool) (m : M World A) :
  (forall e, ok e = true -> ok' e = true) -> logs_only ok m -> logs_only ok' m.
Proof.
  intros Hok Hm s. destruct (Hm s) as (evs & H1 & Hevs).
  exists evs. split; [assumption|].
  apply forallb_forall. intros e He. apply Hok.
  now apply (proj1 (forallb_forall _ _) Hevs).
Qed.

Lemma git_calls_early (evs : list Event) :
  forallb early evs = true -> git_calls evs = [].
Proof.
  induction evs as [|[] evs IH]; cbn; try assumption; try congruence.
Qed.

Lemma quiet_early (e : Event) : quiet e = true -> early e = true.
Proof. destruct e; cbn; congruence. Qed.

End Logs.

Ltac logs :=
  repeat first
    [ apply logs_only_bind; [|intros ?]
    | apply logs_only_ret
    | apply logs_only_stop
    | apply logs_only_get
    | apply logs_only_body
    | apply logs_only_emit; reflexivity
    | match goal with
      | |- logs_only _ (if ?b then _ else _) => destruct b
      | |- logs_only _ (match ?x with _ => _ end) => destruct x
      end ].

Section Quiet.

Context {World : Type} `{Host World} `{Packages World} `{Regexp}.

Lemma logs_only_print ok p msg : ok (EvPrint p msg) = true -> logs_only (World := World) ok (print p msg).
Proof. apply logs_only_emit. Qed.

Lemma logs_only_print_each p msgs : logs_only (World := World) quiet (print_each p msgs).
Proof. induction msgs as [|m msgs IH]; cbn [print_each]; unfold print; logs. exact IH. Qed.

Lemma logs_only_printDryRun_loop repos : logs_only (World := World) quiet (printDryRun_loop repos).
Proof. induction repos as [|r repos IH]; cbn [printDryRun_loop]; unfold print; logs. exact IH. Qed.

Lemma logs_only_Stat path : logs_only (World := World) quiet (Stat path).
Proof. unfold Stat. logs. Qed.

Lemma logs_only_filterByRegex_loop regex repos acc :
  logs_only (World := World) quiet (filterByRegex_loop regex repos acc).
Proof.
  revert acc. induction repos as [|r repos IH]; intros acc;
    cbn [filterByRegex_loop]; unfold MustCompile, panic; logs; apply IH.
Qed.

Lemma logs_only_filterTargets targets :
  logs_only (World := World) quiet (filterTargets targets).
Proof.
  unfold filterTargets, regexStage, ignoreStage, filterByRegex, readGhorgIgnore,
    getenv, print, os_Exit.
  logs; try apply logs_only_filterByRegex_loop; try apply logs_only_Stat.
Qed.

Lemma logs_only_announce targets : logs_only (World := World) quiet (announce targets).
Proof. unfold announce, getenv, print. logs. Qed.

Lemma logs_only_printDryRun targets : logs_only (World := World) quiet (printDryRun targets).
Proof.
  unfold printDryRun, getenv, print. logs. apply logs_only_printDryRun_loop.
Qed.

Lemma logs_only_printRemainingMessages :
  logs_only (World := World) quiet printRemainingMessages.
Proof.
  unfold printRemainingMessages, print. logs; apply logs_only_print_each.
Qed.

Lemma logs_only_report : logs_only (World := World) quiet report.
Proof.
  unfold report, getenv, print. logs; apply logs_only_print_each.
Qed.

End Quiet.

Section Returns.

Context {World : Type}.

Lemma returns_ret {A} (a : A) : returns (World := World) (ret a).
Proof. intros s. now exists a, s. Qed.

Lemma returns_get {A} (f : State World -> A) : returns (get f).
Proof. intros s. now exists (f s), s. Qed.

Lemma returns_modify (f : State World -> State World) : returns (modify f).
Proof. intros s. now exists tt, (f s). Qed.

Lemma returns_bind {A B} (m : M World A) (k : A -> M World B) :
  returns m -> (forall a, returns (k a)) -> returns (bind m k).
Proof.
  intros Hm Hk s. unfold bind. destruct (Hm s) as (a & s1 & ->). apply Hk.
Qed.

Lemma returns_logged {A} ok (m : M World A) (s : State World) :
  returns m -> logs_only ok m ->
  exists a evs, m s = Ret a (logged evs s) /\ forallb ok evs = true.
Proof.
  intros Hr Hl. destruct (Hr s) as (a & s' & Hm). destruct (Hl s) as (evs & Hf & Hok).
  rewrite Hm in Hf. cbn in Hf. subst s'. now exists a, evs.
Qed.

End Returns.

Ltac returns :=
  repeat first
    [ apply returns_bind; [|intros ?]
    | apply returns_ret
    | apply returns_get
    | apply returns_modify
    | match goal with
      | |- returns (if ?b then _ else _) => destruct b
      end ].

Section Report.

Context {World : Type} `{Host World} `{Packages World} `{Regexp}.

Lemma returns_print_each p msgs : returns (World := World) (print_each p msgs).
Proof.
  induction msgs as [|m msgs IH]; cbn [print_each]; unfold print, emit; returns.
  exact IH.
Qed.

Lemma returns_report : returns (World := World) report.
Proof.
  unfold report, printRemainingMessages, getenv, print, emit. returns;
    apply returns_print_each.
Qed.

Lemma report_run (s : State World) :
  exists evs, report s = Ret tt (logged evs s) /\ forallb quiet evs = true.
Proof.
  destruct (returns_logged quiet report s returns_report logs_only_report)
    as ([] & evs & Hr). now exists evs.
Qed.

(** The counters and the two lists after the jobs of [targets]. *)
Lemma runJobs_counts (targets : list Repo) (st : State World) :
  exists st',
    runJobs targets st = Ret tt st' /\
    env st' = env st /\
    parentFolder st' = parentFolder st /\
    let c := (cloneCount st + pulledCount st)%nat in
    let c' := (cloneCount st' + pulledCount st')%nat in
    let m := (length (cloneInfos st) + length (cloneErrors st))%nat in
    let m' := (length (cloneInfos st') + length (cloneErrors st'))%nat in
    (c <= c' <= c + length targets)%nat /\
    (m <= m' <= m + length targets)%nat /\
    (Getenv (env st) "GHORG_BACKUP" <> "true" ->
     Getenv (env st) "GHORG_NO_CLEAN" <> "true" ->
     (c + m + length targets <= c' + m')%nat).
Proof.
  revert st. induction targets as [|t targets IH]; intros st.
  - exists st. cbn. repeat split; lia.
  - cbn [runJobs]. unfold bind at 1. rewrite job_act.
    destruct (act_counts (CloneBranch t) (resolved st t) st)
      as (s1 & -> & He1 & Hp1 & Hc1 & Hm1 & Hd1).
    destruct (IH s1) as (s2 & -> & He2 & Hp2 & Hc2 & Hm2 & Hd2).
    exists s2. rewrite He1 in *. cbn [length].
    split; [reflexivity|]. split; [congruence|]. split; [congruence|].
    cbn zeta in *. split; [lia|]. split; [lia|].
    intros Hb Hn. specialize (Hd1 Hb Hn). specialize (Hd2 Hb Hn). lia.
Qed.

(** C2 (amended): with the jobs run one at a time, every descriptor, wiki or
    not, adds at most one to [cloneCount + pulledCount] and at most one
    message to the two lists, so both are bounded by the number of
    descriptors processed; with backup and no-clean off every descriptor
    adds at least one of the two, so the counters and the new messages
    together lie between once and twice the number of descriptors. *)
Theorem execute_counts (l : Z) (targets : list Repo) (st : State World) :
  exists st',
    execute l targets st = Ret tt st' /\
    let c' := (cloneCount st' + pulledCount st')%nat in
    let m := (length (cloneInfos st) + length (cloneErrors st))%nat in
    let m' := (length (cloneInfos st') + length (cloneErrors st'))%nat in
    (c' <= length targets)%nat /\
    (m <= m' <= m + length targets)%nat /\
    (Getenv (env st) "GHORG_BACKUP" <> "true" ->
     Getenv (env st) "GHORG_NO_CLEAN" <> "true" ->
     (length targets <= c' + (m' - m) <= 2 * length targets)%nat).
Proof.
  unfold execute, bind, emit, reset_counts, modify.
  match goal with
  | |- context [runJobs targets ?s] =>
      destruct (runJobs_counts targets s) as (s1 & -> & He & Hp & Hc & Hm & Hd)
  end.
  destruct (report_run s1) as (evs & -> & _).
  eexists. split; [reflexivity|]. cbn in *.
  split; [lia|]. split; [lia|].
  intros Hb Hn. specialize (Hd Hb Hn). lia.
Qed.

End Report.

Section Filters.

Context {World : Type} `{Host World} `{Packages World} `{Regexp}.

Lemma filterByRegex_loop_compiled regex re repos acc (st : State World) :
  regexp_Compile regex = Some re ->
  filterByRegex_loop regex repos acc st =
    Ret (acc ++ List.filter
           (fun r => negb (String.eqb
                       (regexp_FindString re (getAppNameFromURL (URL r))) ""))
           repos) st.
Proof.
  intros Hre. revert acc.
  induction repos as [|r repos IH]; intros acc; cbn [filterByRegex_loop List.filter].
  - now rewrite app_nil_r.
  - unfold bind, MustCompile. rewrite Hre. cbn. rewrite IH.
    destruct (negb _); [now rewrite <- app_assoc | reflexivity].
Qed.

Lemma filter_sublist {A} (f : A -> bool) (l : list A) : List.filter f l `sublist_of` l.
Proof.
  induction l as [|x l IH]; cbn; [constructor|].
  destruct (f x); now constructor.
Qed.

(** C6 (amended): with a valid pattern the regex filter keeps exactly the
    descriptors for which the leftmost match of the pattern in the derived
    app-name is not empty, in their order; with an invalid pattern the run
    panics as soon as there is a descriptor to filter. *)
Theorem filterByRegex_keeps (repos : list Repo) (st : State World) :
  let regex := Getenv (env st) "GHORG_MATCH_REGEX" in
  match regexp_Compile regex with
  | Some re =>
      let kept :=
        List.filter
          (fun r => negb (String.eqb
                      (regexp_FindString re (getAppNameFromURL (URL r))) ""))
          repos in
      filterByRegex repos st = Ret kept st /\ kept `sublist_of` repos
  | None =>
      repos <> [] -> exists msg, filterByRegex repos st = Stop (Panicked msg) st
  end.
Proof.
  intros regex. destruct (regexp_Compile regex) as [re|] eqn:Hre.
  - split; [|apply filter_sublist].
    unfold filterByRegex, bind, getenv, get. fold regex.
    now rewrite (filterByRegex_loop_compiled regex re).
  - intros Hne. destruct repos as [|r repos]; [congruence|].
    unfold filterByRegex, bind, getenv, get. fold regex.
    cbn [filterByRegex_loop]. unfold bind, MustCompile. rewrite Hre.
    eexists. reflexivity.
Qed.

Lemma announce_run targets (s : State World) :
  exists found,
    announce targets s = Ret tt (logged [EvPrint PrintInfo found; EvPrint Println ""] s).
Proof.
  unfold announce, bind, getenv, get, print, emit, modify, logged. cbn.
  destruct (String.eqb _ _); cbn; eexists; rewrite <- app_assoc; reflexivity.
Qed.

Lemma printDryRun_loop_run repos (s : State World) :
  printDryRun_loop repos s =
    Ret tt (logged (map (fun r => EvPrint PrintSubtleInfo (URL r)) repos) s).
Proof.
  revert s. induction repos as [|r repos IH]; intros s; cbn [printDryRun_loop map].
  - unfold ret. now rewrite logged_nil.
  - unfold bind, print, emit, modify. rewrite IH. unfold logged. cbn.
    now rewrite <- app_assoc.
Qed.

Lemma printDryRun_run repos (s : State World) :
  printDryRun repos s =
    Ret tt (logged (map (fun r => EvPrint PrintSubtleInfo (URL r)) repos ++
                    [EvPrint Println "";
                     EvPrint PrintSuccess
                       (strconv.Itoa (length repos) +:+ " repos to be cloned into: " +:+
                        Getenv (env s) "GHORG_ABSOLUTE_PATH_TO_CLONE_TO" +:+
                        parentFolder s)]) s).
Proof.
  unfold printDryRun, bind. rewrite printDryRun_loop_run.
  unfold print, emit, modify, getenv, get, logged. cbn.
  now rewrite <- !app_assoc.
Qed.

(** C8: in dry-run mode the run changes nothing but the log, to which it
    adds only printed lines, [os.Stat] calls and the reading of the
    ignore-file: no directory is created, no version-control operation is
    called and the executor is not started; when the filters pass, the run
    returns after having printed the count found, the URL of every
    surviving descriptor in order, and the number of destinations. *)
Theorem dry_run_only_prints (targets : list Repo) (st : State World) :
  Getenv (env st) "GHORG_DRY_RUN" = "true" ->
  (exists evs,
     final (CloneAllRepos targets st) = logged evs st /\
     forallb quiet evs = true) /\
  forall survivors st1,
    filterTargets targets st = Ret survivors st1 ->
    exists found,
      CloneAllRepos targets st =
        Ret tt (logged
          ([EvPrint PrintInfo found; EvPrint Println ""] ++
           map (fun r => EvPrint PrintSubtleInfo (URL r)) survivors ++
           [EvPrint Println "";
            EvPrint PrintSuccess
              (strconv.Itoa (length survivors) +:+ " repos to be cloned into: " +:+
               Getenv (env st) "GHORG_ABSOLUTE_PATH_TO_CLONE_TO" +:+
               parentFolder st)]) st1).
Proof.
  intros Hdry.
  assert (Hpass : forall survivors st1,
    filterTargets targets st = Ret survivors st1 ->
    exists found,
      CloneAllRepos targets st =
        Ret tt (logged
          ([EvPrint PrintInfo found; EvPrint Println ""] ++
           map (fun r => EvPrint PrintSubtleInfo (URL r)) survivors ++
           [EvPrint Println "";
            EvPrint PrintSuccess
              (strconv.Itoa (length survivors) +:+ " repos to be cloned into: " +:+
               Getenv (env st) "GHORG_ABSOLUTE_PATH_TO_CLONE_TO" +:+
               parentFolder st)]) st1)).
  { intros survivors st1 Hf.
    destruct (logs_only_filterTargets targets st) as (evs & Hfin & _).
    rewrite Hf in Hfin. cbn in Hfin.
    destruct (announce_run survivors st1) as (found & Hann).
    exists found. unfold CloneAllRepos, preflight, body, bind at 1.
    unfold bind at 1. rewrite Hf. unfold bind at 1. rewrite Hann.
    unfold bind at 1, getenv, get. cbn [env logged].
    replace (env st1) with (env st) by now subst st1.
    rewrite Hdry. change (String.eqb "true" "true") with true. cbv iota.
    unfold bind. rewrite printDryRun_run. cbn.
    rewrite logged_logged. subst st1. reflexivity. }
  split; [|exact Hpass].
  destruct (logs_only_filterTargets targets st) as (evs & Hfin & Hq).
  destruct (filterTargets targets st) as [survivors st1|why st1] eqn:Hf;
    cbn in Hfin.
  - destruct (Hpass survivors st1 eq_refl) as (found & ->). cbn [final].
    subst st1. rewrite logged_logged. eexists. split; [reflexivity|].
    rewrite forallb_app, Hq. cbn. rewrite forallb_app. cbn.
    rewrite andb_true_r. apply forallb_forall. intros e He.
    apply in_map_iff in He as (r & <- & _). reflexivity.
  - exists evs. split; [|assumption].
    unfold CloneAllRepos, preflight, body, bind. rewrite Hf.
    destruct why; exact Hfin.
Qed.

Lemma grows_refl ok (s : State World) : grows ok s s.
Proof. repeat split. exists []. now rewrite app_nil_r. Qed.

Lemma grows_trans ok (s1 s2 s3 : State World) :
  grows ok s1 s2 -> grows ok s2 s3 -> grows ok s1 s3.
Proof.
  intros (He1 & Hp1 & evs1 & Hl1 & Hok1) (He2 & Hp2 & evs2 & Hl2 & Hok2).
  split; [congruence|]. split; [congruence|].
  exists (evs1 ++ evs2). rewrite Hl2, Hl1, app_assoc, forallb_app, Hok1, Hok2.
  now split.
Qed.

Lemma stable_bind {A B} ok (m : M World A) (k : A -> M World B) :
  stable (grows ok) m -> (forall a, stable (grows ok) (k a)) ->
  stable (grows ok) (bind m k).
Proof.
  intros Hm Hk s. unfold bind. specialize (Hm s).
  destruct (m s) as [a s1|why s1]; cbn in Hm; [|exact Hm].
  exact (grows_trans _ _ _ _ Hm (Hk a s1)).
Qed.

Lemma logs_only_stable {A} (ok ok' : Event -> bool) (m : M World A) :
  (forall e, ok e = true -> ok' e = true) ->
  logs_only ok m -> stable (grows ok') m.
Proof.
  intros Hok Hm s.
  destruct (logs_only_weaken ok ok' m Hok Hm s) as (evs & -> & Hevs).
  repeat split. now exists evs.
Qed.

Lemma createDirIfNotExist_grows :
  stable (World := World) (grows early) createDirIfNotExist.
Proof.
  intros s. unfold createDirIfNotExist, bind, getenv, get, Stat, MkdirAll,
    emit, set_world, modify, panic, stop, ret. cbn.
  destruct (IsNotExist _); cbn.
  - destruct (os_MkdirAll _ _) as [[e|] w]; cbn; repeat split;
      eexists; rewrite <- app_assoc; split; reflexivity.
  - repeat split. eexists. split; reflexivity.
Qed.

Lemma preflight_grows targets : stable (World := World) (grows early) (preflight targets).
Proof.
  unfold preflight.
  apply stable_bind; [apply (logs_only_stable quiet), logs_only_filterTargets; apply quiet_early|].
  intros ts.
  apply stable_bind; [apply (logs_only_stable quiet), logs_only_announce; apply quiet_early|].
  intros _.
  apply stable_bind; [apply (logs_only_stable quiet), logs_only_get; apply quiet_early|].
  intros dry.
  apply stable_bind.
  { apply (logs_only_stable quiet); [apply quiet_early|].
    destruct (String.eqb dry "true"); [|apply logs_only_ret].
    apply logs_only_bind; [apply logs_only_printDryRun|].
    intros _. apply logs_only_stop. }
  intros _.
  apply stable_bind; [apply createDirIfNotExist_grows|].
  intros _ s. apply grows_refl.
Qed.

Lemma execute_returns l targets (s : State World) :
  exists s', execute l targets s = Ret tt s'.
Proof.
  unfold execute, bind, emit, reset_counts, modify.
  match goal with
  | |- context [runJobs targets ?s0] =>
      destruct (runJobs_counts targets s0) as (s1 & -> & _)
  end.
  destruct (report_run s1) as (evs & -> & _). eexists. reflexivity.
Qed.

(** From the concurrency value on (clone.go:382-568), after a pre-flight
    that passed. *)
Lemma CloneAllRepos_after_preflight targets ts (st st1 : State World) :
  preflight targets st = Ret ts st1 ->
  match strconv.Atoi (Getenv (env st) "GHORG_CONCURRENCY") with
  | None =>
      CloneAllRepos targets st =
        Stop (Exited 1)
          (logged [EvPrint LogFatal "Could not determine GHORG_CONCURRENCY"] st1)
  | Some l => CloneAllRepos targets st = execute l ts st1
  end.
Proof.
  intros Hpre. pose proof (preflight_grows targets st) as (He & _).
  rewrite Hpre in He. cbn in He.
  assert (Hc : concurrency st1 =
    match strconv.Atoi (Getenv (env st) "GHORG_CONCURRENCY") with
    | Some l => Ret l st1
    | None =>
        Stop (Exited 1)
          (logged [EvPrint LogFatal "Could not determine GHORG_CONCURRENCY"] st1)
    end).
  { unfold concurrency, bind, getenv, get. cbv beta. rewrite He.
    destruct (strconv.Atoi _); reflexivity. }
  destruct (strconv.Atoi _) as [l|];
    unfold CloneAllRepos, body; unfold bind at 1; rewrite Hpre;
    unfold bind at 1; rewrite Hc; [|reflexivity].
  destruct (execute_returns l ts st1) as (s' & ->). reflexivity.
Qed.

(** C7 (amended): a concurrency value that is not a decimal integer is a
    fatal error, after the pre-flight and before any version-control
    operation and before the limiter is created; every value that parses,
    zero and negative values included, starts the executor with that
    limit. *)
Theorem concurrency_must_parse targets ts (st st1 : State World) :
  preflight targets st = Ret ts st1 ->
  match strconv.Atoi (Getenv (env st) "GHORG_CONCURRENCY") with
  | None =>
      exists st2,
        CloneAllRepos targets st = Stop (Exited 1) st2 /\
        exists evs, log st2 = log st ++ evs /\ forallb early evs = true
  | Some l =>
      CloneAllRepos targets st = execute l ts st1 /\
      exists st', execute l ts st1 = Ret tt st'
  end.
Proof.
  intros Hpre. pose proof (CloneAllRepos_after_preflight _ _ _ _ Hpre) as Hrun.
  destruct (strconv.Atoi _) as [l|].
  - split; [assumption | apply execute_returns].
  - eexists. split; [exact Hrun|].
    pose proof (preflight_grows targets st) as (_ & _ & evs & Hl & Hok).
    rewrite Hpre in Hl. cbn in Hl.
    exists (evs ++ [EvPrint LogFatal "Could not determine GHORG_CONCURRENCY"]).
    cbn. rewrite Hl, app_assoc, forallb_app, Hok. now split.
Qed.

End Filters.

Section Command_facts.

Context {World : Type} `{Host World} `{Packages World} `{Regexp}.

Lemma log_grows_refl ok (s : State World) : log_grows ok s s.
Proof. exists []. now rewrite app_nil_r. Qed.

Lemma log_grows_trans ok (s1 s2 s3 : State World) :
  log_grows ok s1 s2 -> log_grows ok s2 s3 -> log_grows ok s1 s3.
Proof.
  intros (evs1 & Hl1 & Hok1) (evs2 & Hl2 & Hok2).
  exists (evs1 ++ evs2). rewrite Hl2, Hl1, app_assoc, forallb_app, Hok1, Hok2.
  now split.
Qed.

Lemma log_grows_logged ok evs (s1 s2 : State World) :
  log_grows ok s1 s2 -> forallb ok evs = true -> log_grows ok s1 (logged evs s2).
Proof.
  intros H12 Hok. apply (log_grows_trans _ _ s2); [assumption|].
  now exists evs.
Qed.

Lemma stable_log_bind {A B} ok (m : M World A) (k : A -> M World B) :
  stable (log_grows ok) m -> (forall a, stable (log_grows ok) (k a)) ->
  stable (log_grows ok) (bind m k).
Proof.
  intros Hm Hk s. unfold bind. specialize (Hm s).
  destruct (m s) as [a s1|why s1]; cbn in Hm; [|exact Hm].
  exact (log_grows_trans _ _ _ _ Hm (Hk a s1)).
Qed.

Lemma stable_log_same {A} ok (m : M World A) :
  (forall s, log (final (m s)) = log s) -> stable (log_grows ok) m.
Proof. intros Hm s. exists []. now rewrite Hm, app_nil_r. Qed.

Lemma logs_only_log {A} (ok : Event -> bool) (m : M World A) :
  logs_only ok m -> stable (log_grows ok) m.
Proof. intros Hm s. destruct (Hm s) as (evs & -> & Hevs). now exists evs. Qed.

Lemma final_run {A} ok (m : M World A) (s s1 : State World) (r : Result (State World) A) :
  stable (log_grows ok) m -> m s = r -> final r = s1 -> log_grows ok s s1.
Proof. intros Hm <- <-. apply Hm. Qed.

Ltac grow :=
  repeat first
    [ apply stable_log_bind; [|intros ?]
    | apply stable_log_same; reflexivity
    | apply logs_only_log, logs_only_emit; reflexivity
    | match goal with
      | |- stable _ (if ?b then _ else _) => destruct b
      | |- stable _ (match ?x with _ => _ end) => destruct x
      end ].

Lemma prepare_log flags argz : stable (World := World) (log_grows early) (prepare flags argz).
Proof.
  unfold prepare, flags_to_env, flag_to_env, token_flag, getenv, print, os_Exit.
  grow.
Qed.

Lemma getCloneUrls_log isOrg : stable (World := World) (log_grows early) (getCloneUrls isOrg).
Proof.
  unfold getCloneUrls, asciiTime, PrintConfigs, info_if, getenv, print, os_Exit.
  grow.
Qed.

Lemma regexStage_logs targets : logs_only (World := World) quiet (regexStage targets).
Proof.
  unfold regexStage, filterByRegex, getenv, print.
  logs; apply logs_only_filterByRegex_loop.
Qed.

(** A token that does not verify: exit status 1 before the provider is
    asked for anything. *)
Lemma bad_token flags argz argz' (st st1 : State World) msg :
  prepare flags argz st = Ret argz' st1 ->
  VerifyTokenSet (env st1) = Some msg ->
  cloneFunc flags argz st = Stop (Exited 1) (logged [EvPrint PrintError msg] st1).
Proof.
  intros Hprep Htoken. unfold cloneFunc. unfold bind at 1. rewrite Hprep.
  unfold bind at 1. unfold verify at 1. unfold bind, get. rewrite Htoken.
  reflexivity.
Qed.

(** An ignore-file that exists and cannot be read: exit status 1. *)
Lemma unreadable_ignore targets ts (st st1 : State World) msg :
  regexStage targets st = Ret ts st1 ->
  IsNotExist (os_Stat (GhorgIgnoreLocation (env st1)) (world st1)) = false ->
  scan_error (os_Scan (GhorgIgnoreLocation (env st1)) (world st1)) = Some msg ->
  exists evs,
    CloneAllRepos targets st = Stop (Exited 1) (logged evs st1) /\
    forallb quiet evs = true.
Proof.
  intros Hregex Hstat Hscan.
  unfold CloneAllRepos, preflight, filterTargets, body.
  unfold bind at 1. unfold bind at 1. unfold bind at 1. rewrite Hregex.
  unfold ignoreStage, readGhorgIgnore, bind, get, Stat, emit, modify, ret,
    print, os_Exit, stop. cbn.
  rewrite Hstat. cbn.
  destruct (os_Scan _ _) as [err|lines [err|]]; cbn in Hscan; try discriminate;
    injection Hscan as ->; cbn; eexists; (split; [|shelve]);
    unfold logged; cbn; rewrite <- !app_assoc; cbn; reflexivity.
  Unshelve. all: reflexivity.
Qed.

(** No repository listed: exit status 0. *)
Lemma nothing_listed (st st1 : State World) :
  Getenv (env st) "GHORG_CLONE_TYPE" = "org" \/
  Getenv (env st) "GHORG_CLONE_TYPE" = "user" ->
  getCloneUrls (String.eqb (Getenv (env st) "GHORG_CLONE_TYPE") "org") st
    = Ret ([], None) st1 ->
  exists msg,
    setupRepoClone st = Stop (Exited 0) (logged [EvPrint PrintInfo msg] st1).
Proof.
  intros Htype Hlist. unfold setupRepoClone. unfold bind at 1.
  unfold getenv at 1, get. unfold bind at 1.
  unfold getAllOrgCloneUrls, getAllUserCloneUrls.
  destruct Htype as [Ht|Ht]; rewrite Ht in Hlist |- *.
  - change (String.eqb "org" "org") with true in Hlist |- *. cbv iota.
    rewrite Hlist. cbn. eexists. reflexivity.
  - change (String.eqb "user" "org") with false in Hlist |- *.
    change (String.eqb "user" "user") with true. cbv iota.
    rewrite Hlist. cbn. eexists. reflexivity.
Qed.

(** C3 (amended): once the executor has started the run returns, with exit
    status 0, whatever errors the repositories left; a token that does not
    verify, a concurrency value that is not a decimal integer and an
    ignore-file that cannot be read end the process with status 1 before
    the executor starts; an empty list of repositories from the provider
    ends it before the executor starts with status 0, after a notice. *)
Theorem exit_statuses :
  (forall l ts (s : State World),
     exists s', execute l ts s = Ret tt s' /\ exit_status (execute l ts s) = 0%Z) /\
  (forall targets ts (st st1 : State World) l,
     preflight targets st = Ret ts st1 ->
     strconv.Atoi (Getenv (env st) "GHORG_CONCURRENCY") = Some l ->
     exit_status (CloneAllRepos targets st) = 0%Z) /\
  (forall flags argz argz' (st st1 : State World) msg,
     prepare flags argz st = Ret argz' st1 ->
     VerifyTokenSet (env st1) = Some msg ->
     exit_status (cloneFunc flags argz st) = 1%Z /\
     log_grows early st (final (cloneFunc flags argz st))) /\
  (forall targets ts (st st1 : State World),
     preflight targets st = Ret ts st1 ->
     strconv.Atoi (Getenv (env st) "GHORG_CONCURRENCY") = None ->
     exit_status (CloneAllRepos targets st) = 1%Z /\
     log_grows early st (final (CloneAllRepos targets st))) /\
  (forall targets ts (st st1 : State World) msg,
     regexStage targets st = Ret ts st1 ->
     IsNotExist (os_Stat (GhorgIgnoreLocation (env st1)) (world st1)) = false ->
     scan_error (os_Scan (GhorgIgnoreLocation (env st1)) (world st1)) = Some msg ->
     exit_status (CloneAllRepos targets st) = 1%Z /\
     log_grows early st (final (CloneAllRepos targets st))) /\
  (forall (st st1 : State World),
     Getenv (env st) "GHORG_CLONE_TYPE" = "org" \/
     Getenv (env st) "GHORG_CLONE_TYPE" = "user" ->
     getCloneUrls (String.eqb (Getenv (env st) "GHORG_CLONE_TYPE") "org") st
       = Ret ([], None) st1 ->
     exit_status (setupRepoClone st) = 0%Z /\
     log_grows early st (final (setupRepoClone st))).
Proof.
  repeat apply conj.
  - intros l ts s. destruct (execute_returns l ts s) as (s' & Hs).
    exists s'. now rewrite Hs.
  - intros targets ts st st1 l Hpre Hl.
    pose proof (CloneAllRepos_after_preflight _ _ _ _ Hpre) as Hrun.
    rewrite Hl in Hrun. rewrite Hrun.
    destruct (execute_returns l ts st1) as (s' & ->). reflexivity.
  - intros flags argz argz' st st1 msg Hprep Htoken.
    rewrite (bad_token _ _ _ _ _ _ Hprep Htoken). split; [reflexivity|].
    apply log_grows_logged; [|reflexivity].
    exact (final_run _ _ _ _ _ (prepare_log flags argz) Hprep eq_refl).
  - intros targets ts st st1 Hpre Hl.
    pose proof (CloneAllRepos_after_preflight _ _ _ _ Hpre) as Hrun.
    rewrite Hl in Hrun. rewrite Hrun. split; [reflexivity|].
    apply log_grows_logged; [|reflexivity].
    pose proof (preflight_grows targets st) as (_ & _ & Hg).
    now rewrite Hpre in Hg.
  - intros targets ts st st1 msg Hregex Hstat Hscan.
    destruct (unreadable_ignore _ _ _ _ _ Hregex Hstat Hscan) as (evs & -> & Hq).
    split; [reflexivity|].
    apply log_grows_logged.
    + apply (final_run _ _ _ _ _ (logs_only_log _ _ (logs_only_weaken _ _ _ quiet_early (regexStage_logs targets))) Hregex eq_refl).
    + apply forallb_forall. intros e He. apply quiet_early.
      now apply (proj1 (forallb_forall _ _) Hq).
  - intros st st1 Htype Hlist.
    destruct (nothing_listed _ _ Htype Hlist) as (msg & ->).
    split; [reflexivity|].
    apply log_grows_logged; [|reflexivity].
    exact (final_run _ _ _ _ _ (getCloneUrls_log _) Hlist eq_refl).
Qed.

End Command_facts.

(** * Runs in the scripted world *)

Section Scripted_runs.

#[local] Existing Instance Scripted.host.
#[local] Existing Instance Scripted.packages.
#[local] Existing Instance Scripted.regexps.

Import Scripted.

(** C1, as stated, fails: for a wiki whose destination exists, a failing
    clean is recorded in the error list and not as a notice. *)
Lemma wiki_clean_failure_counterexample :
  let st' := final (job wiki (start [root] "org" (refusing [(Clean, URL wiki)] cloned))) in
  IsWiki wiki = true /\
  ops_of (git_calls (log st')) = [Checkout; Clean] /\
  failure (git_calls (log st')) = Some (Clean, "exit status 1") /\
  cloneInfos st' = [] /\
  cloneErrors st' =
    ["Problem running git clean: https://host/org/app.wiki.git Error: exit status 1"].
Proof. vm_compute. repeat split. Qed.

(** A wiki whose clone fails leaves one notice and no error. *)
Lemma wiki_failure_classified_witness :
  exists st',
    job wiki (start [root] "org" (refusing [(Clone, URL wiki)] fresh)) = Ret tt st' /\
    cloneErrors st' = [] /\
    exists msg, cloneInfos st' = [msg].
Proof.
  edestruct (wiki_failure_classified wiki
               (start [root] "org" (refusing [(Clone, URL wiki)] fresh)))
    as (st' & Hjob & _ & Hmsg).
  - reflexivity.
  - vm_compute. reflexivity.
  - exists st'. split; [exact Hjob|]. exact (Hmsg Clone "exit status 1" eq_refl).
Defined.

(** C2, as stated, fails: a descriptor whose clone succeeds and whose
    set-origin fails counts in [cloneCount] and in the error list, and a
    wiki that is cloned counts in [cloneCount]. *)
Lemma double_count_counterexample :
  let st' := final (execute 25 [app]
                      (start [root] "org" (refusing [(SetOrigin, URL app)] fresh))) in
  let st'' := final (execute 25 [wiki] (start [root] "org" fresh)) in
  (cloneCount st' + pulledCount st' +
     (length (cloneInfos st') + length (cloneErrors st')) = 2)%nat /\
  getRepoCountOnly [app] = 1%nat /\
  (cloneCount st' + pulledCount st' +
     (length (cloneInfos st') + length (cloneErrors st')))%nat
    <> getRepoCountOnly [app] /\
  cloneCount st'' = 1%nat /\
  getRepoCountOnly [wiki] = 0%nat.
Proof. vm_compute. repeat split. discriminate. Qed.

(** A repository and its wiki, both cloned: between two and four counts. *)
Lemma execute_counts_witness :
  exists st',
    execute 25 [app; wiki] (start [root] "org" fresh) = Ret tt st' /\
    (2 <= cloneCount st' + pulledCount st' +
          (length (cloneInfos st') + length (cloneErrors st')) <= 4)%nat.
Proof.
  destruct (execute_counts 25 [app; wiki] (start [root] "org" fresh))
    as (st' & Hrun & Hc & Hm & Hd).
  exists st'. split; [exact Hrun|].
  assert (Hb : Getenv (env (start [root] "org" fresh)) "GHORG_BACKUP" <> "true")
    by (vm_compute; discriminate).
  assert (Hn : Getenv (env (start [root] "org" fresh)) "GHORG_NO_CLEAN" <> "true")
    by (vm_compute; discriminate).
  specialize (Hd Hb Hn). cbn in Hd, Hm. lia.
Defined.

(** C3, as stated, fails: when the provider lists no repository the process
    exits with status 0. *)
Lemma no_repos_exit_counterexample :
  let r := cloneFunc
             (list_to_map [("scm", "github"); ("clone-type", "org"); ("token", "x")])
             ["MyOrg"] (start [root; ("GHORG_CONCURRENCY", "25")] "" fresh) in
  exit_status r = 0%Z /\
  (exists s, r = Stop (Exited 0) s) /\
  git_calls (log (final r)) = [].
Proof. vm_compute. split; [reflexivity|]. split; [eexists|]; reflexivity. Qed.

(** The exit statuses of five runs: no token, a good run, a concurrency
    that is not a number, an unreadable ignore-file, an empty listing. *)
Lemma exit_statuses_witness :
  exit_status
    (cloneFunc (list_to_map [("scm", "github"); ("clone-type", "org")]) ["MyOrg"]
       (start [root] "" fresh)) = 1%Z /\
  exit_status
    (CloneAllRepos [app] (start [root; ("GHORG_CONCURRENCY", "25")] "org" fresh)) = 0%Z /\
  exit_status
    (CloneAllRepos [app] (start [root; ("GHORG_CONCURRENCY", "many")] "org" fresh)) = 1%Z /\
  exit_status
    (CloneAllRepos [app]
       (start [root; ("GHORG_CONCURRENCY", "25")] "org"
          (ignoring (OpenFailed "permission denied") fresh))) = 1%Z /\
  exit_status
    (setupRepoClone
       (start [root; ("GHORG_CLONE_TYPE", "user"); ("GHORG_SCM_TYPE", "gitlab")]
          "org" fresh)) = 0%Z.
Proof.
  destruct (exit_statuses (World := World)) as (_ & Hok & Htoken & Hconc & Hign & Hzero).
  split; [|split; [|split; [|split]]].
  - eapply Htoken; vm_compute; reflexivity.
  - eapply Hok; vm_compute; reflexivity.
  - eapply Hconc; vm_compute; reflexivity.
  - eapply Hign; vm_compute; reflexivity.
  - eapply Hzero; [right|]; vm_compute; reflexivity.
Defined.

(** C4, as stated, fails: in backup mode the destination of a wiki is
    composed afresh and carries no [.wiki] suffix; with preservation on, a
    descriptor without a path gets its app-name; and a destination that
    already ends in [.wiki] gets no second suffix. *)
Lemma backup_wiki_path_counterexample :
  let backup :=
    start [root; ("GHORG_BACKUP", "true");
           ("GHORG_PRESERVE_DIRECTORY_STRUCTURE", "true")] "org" fresh in
  let preserve :=
    start [root; ("GHORG_PRESERVE_DIRECTORY_STRUCTURE", "true")] "org" fresh in
  HostPath (resolved backup pages)
    <> composed_hostPath "/home/u/ghorg/" "org" "/" true true pages /\
  HostPath (resolved backup pages) = "/home/u/ghorg/org_backup/group/app" /\
  composed_hostPath "/home/u/ghorg/" "org" "/" true true pages
    = "/home/u/ghorg/org_backup/group/app.wiki" /\
  HostPath (resolved preserve app) = "/home/u/ghorg/org/app" /\
  composed_hostPath "/home/u/ghorg/" "org" "/" true false app = "/home/u/ghorg/org" /\
  HostPath (resolved preserve wiki) = "/home/u/ghorg/org/app.wiki" /\
  composed_hostPath "/home/u/ghorg/" "org" "/" false false wiki
    = "/home/u/ghorg/org/app.wiki.wiki".
Proof. vm_compute. split; [discriminate | repeat split]. Qed.

(** The destination of a wiki, and of a repository in backup mode. *)
Lemma hostPath_composition_witness :
  HostPath (resolved (start [root] "org" fresh) wiki) = "/home/u/ghorg/org/app.wiki" /\
  HostPath (resolved (start [root; ("GHORG_BACKUP", "true")] "org" fresh) app)
    = "/home/u/ghorg/org_backup/app".
Proof.
  split.
  - destruct (hostPath_composition wiki (start [root] "org" fresh)) as (Hplain & _).
    destruct Hplain as (-> & _); [vm_compute; discriminate|].
    vm_compute. reflexivity.
  - destruct (hostPath_composition app
                (start [root; ("GHORG_BACKUP", "true")] "org" fresh))
      as (_ & Hbackup & _).
    rewrite Hbackup; vm_compute; reflexivity.
Defined.

(** C6, as stated, fails: the pattern [z*] matches the app-name [app], with
    an empty match, and the descriptor is dropped. *)
Lemma empty_match_counterexample :
  let st := start [root; ("GHORG_MATCH_REGEX", "z*")] "org" fresh in
  (exists re,
     Fragment.Compile "z*" = Some re /\
     Fragment.MatchString re (getAppNameFromURL (URL app)) = true) /\
  filterByRegex [app] st = Ret [] st.
Proof. vm_compute. split; [eexists; split|]; reflexivity. Qed.

(** The pattern [a**] is rejected, and the run panics. *)
Lemma filterByRegex_keeps_witness :
  let st := start [root; ("GHORG_MATCH_REGEX", "a**")] "org" fresh in
  exists msg, filterByRegex [app] st = Stop (Panicked msg) st.
Proof.
  intros st.
  pose proof (filterByRegex_keeps [app] st) as Hk.
  vm_compute in Hk. vm_compute. apply Hk. discriminate.
Defined.

(** C7, as stated, fails: with a concurrency of 0, or a negative one, the
    limiter is created and the repositories are cloned. *)
Lemma zero_concurrency_counterexample :
  let r0 := CloneAllRepos [app] (start [root; ("GHORG_CONCURRENCY", "0")] "org" fresh) in
  let r3 := CloneAllRepos [app] (start [root; ("GHORG_CONCURRENCY", "-3")] "org" fresh) in
  (exists s, r0 = Ret tt s) /\
  In (EvLimiter 0) (log (final r0)) /\
  ops_of (git_calls (log (final r0))) = [Clone; SetOrigin] /\
  (exists s, r3 = Ret tt s) /\
  In (EvLimiter (-3)) (log (final r3)) /\
  ops_of (git_calls (log (final r3))) = [Clone; SetOrigin].
Proof.
  vm_compute.
  split; [eexists; reflexivity|]. split; [tauto|]. split; [reflexivity|].
  split; [eexists; reflexivity|]. split; [tauto|]. reflexivity.
Qed.

(** A concurrency of [1.5] is fatal before any version-control call. *)
Lemma concurrency_must_parse_witness :
  exists st2,
    CloneAllRepos [app] (start [root; ("GHORG_CONCURRENCY", "1.5")] "org" fresh)
      = Stop (Exited 1) st2 /\
    git_calls (log st2) = [].
Proof.
  edestruct (concurrency_must_parse [app] [app]
               (start [root; ("GHORG_CONCURRENCY", "1.5")] "org" fresh))
    as (st2 & Hrun & evs & Hlog & Hearly).
  - vm_compute. reflexivity.
  - exists st2. split; [exact Hrun|].
    rewrite Hlog. exact (git_calls_early evs Hearly).
Defined.

(** A dry run over a repository and its wiki. *)
Lemma dry_run_only_prints_witness :
  exists evs,
    final (CloneAllRepos [app; wiki]
             (start [root; ("GHORG_DRY_RUN", "true")] "org" fresh))
      = logged evs (start [root; ("GHORG_DRY_RUN", "true")] "org" fresh) /\
    forallb quiet evs = true.
Proof.
  apply (dry_run_only_prints [app; wiki]
           (start [root; ("GHORG_DRY_RUN", "true")] "org" fresh)).
  vm_compute. reflexivity.
Defined.

(** A destination that cannot be read for lack of permission is taken as
    existing: the job starts with a checkout. *)
Lemma repoExistsLocally_routes_witness :
  let st :=
    start [root] "org"
      (mkWorld [] [("/home/u/ghorg/org/app", EACCES)] [] (Scanned [] None) ([], None)) in
  exists st' calls,
    job app st = Ret tt st' /\
    git_calls (log st') = calls /\
    called Clone calls = false /\
    head (ops_of calls) = Some Checkout.
Proof.
  intros st.
  destruct (repoExistsLocally_routes app st) as (_ & _ & st' & calls & Hjob & Hlog & Hroute).
  exists st', calls. split; [exact Hjob|]. split; [exact Hlog|]. exact Hroute.
Defined.

(** A repository that is on disk is checked out, cleaned, reset and
    pulled. *)
Lemma clean_pull_in_order_witness :
  exists st',
    job app (start [root] "org" cloned) = Ret tt st' /\
    ops_of (git_calls (log st')) = [Checkout; Clean; Reset; Pull] /\
    pulledCount st' = 1%nat.
Proof.
  edestruct (clean_pull_in_order app (start [root] "org" cloned))
    as (st' & Hjob & _ & Hlog & _ & _ & Hp & _).
  - reflexivity.
  - vm_compute. discriminate.
  - vm_compute. discriminate.
  - vm_compute. discriminate.
  - vm_compute. reflexivity.
  - exists st'. split; [exact Hjob|]. split.
    + rewrite Hlog. reflexivity.
    + rewrite Hp. reflexivity.
Defined.

End Scripted_runs.

(** * The filters *)

Lemma HasPrefix_occurs (s p : string) :
  strings.HasPrefix s p = true <-> exists post, s = p +:+ post.
Proof.
  revert s. induction p as [|c p IH]; intros s; simpl.
  - split; [intros _; now exists s | intros _; destruct s; reflexivity].
  - destruct s as [|a s]; simpl.
    + split; [discriminate | intros (post & Hp); discriminate].
    + rewrite andb_true_iff, IH. split.
      * intros (Hc & post & ->). apply Ascii.eqb_eq in Hc as ->. now exists post.
      * intros (post & Hp). injection Hp as -> ->.
        split; [apply Ascii.eqb_refl | now exists post].
Qed.

Lemma Contains_occurs (s sub : string) :
  strings.Contains s sub = true <-> occurs_in sub s.
Proof.
  unfold occurs_in. induction s as [|a s IH].
  - cbn [strings.Contains]. rewrite orb_false_r, HasPrefix_occurs. split.
    + intros (post & ->). now exists "", post.
    + intros ([|c pre] & post & Hs); [now exists post|discriminate].
  - cbn [strings.Contains]. rewrite orb_true_iff, HasPrefix_occurs, IH. split.
    + intros [(post & ->)|(pre & post & ->)].
      * now exists "", post.
      * now exists (String a pre), post.
    + intros ([|c pre] & post & Hs).
      * left. now exists post.
      * right. injection Hs as -> ->. now exists pre, post.
Qed.

Lemma ignore_loop_existsb url toIgnore flag :
  ignore_loop url toIgnore flag = flag || existsb (strings.Contains url) toIgnore.
Proof.
  revert flag. induction toIgnore as [|line rest IH]; intros flag; cbn.
  - now rewrite orb_false_r.
  - rewrite IH. destruct (strings.Contains url line), flag; reflexivity.
Qed.

Lemma ignore_filter_loop_filter targets toIgnore acc :
  ignore_filter_loop targets toIgnore acc =
    acc ++ List.filter
             (fun r => negb (existsb (strings.Contains (URL r)) toIgnore)) targets.
Proof.
  revert acc. induction targets as [|r targets IH]; intros acc; cbn.
  - now rewrite app_nil_r.
  - rewrite IH, ignore_loop_existsb. cbn.
    destruct (negb _); [now rewrite <- app_assoc | reflexivity].
Qed.

(** X1: the ignore filter keeps, in their order, exactly the descriptors whose
    URL contains none of the lines of the ignore-file as a run of
    consecutive bytes. *)
Theorem ignore_filter_keeps (targets : list Repo) (toIgnore : list string) :
  let kept := ignore_filter_loop targets toIgnore [] in
  kept `sublist_of` targets /\
  forall r, In r kept <->
            In r targets /\ forall line, In line toIgnore -> ~ occurs_in line (URL r).
Proof.
  cbn zeta. rewrite ignore_filter_loop_filter. cbn [app]. split.
  - apply filter_sublist.
  - intros r. rewrite filter_In, negb_true_iff. split.
    + intros (Hin & Hnone). split; [assumption|]. intros line Hline Hocc.
      apply Contains_occurs in Hocc.
      assert (existsb (strings.Contains (URL r)) toIgnore = true)
        by (apply existsb_exists; eauto).
      congruence.
    + intros (Hin & Hnone). split; [assumption|].
      destruct (existsb _ _) eqn:He; [|reflexivity].
      apply existsb_exists in He as (line & Hline & Hc).
      apply Contains_occurs in Hc. now destruct (Hnone line Hline).
Qed.

Lemma filter_filter_same {A} (f : A -> bool) (l : list A) :
  List.filter f (List.filter f l) = List.filter f l.
Proof.
  induction l as [|x l IH]; cbn; [reflexivity|].
  destruct (f x) eqn:Hf; cbn; rewrite ?Hf, ?IH; reflexivity.
Qed.

Lemma filter_all {A} (f : A -> bool) (l : list A) :
  (forall x, f x = true) -> List.filter f l = l.
Proof.
  intros Hf. induction l as [|x l IH]; cbn [List.filter]; [reflexivity|].
  now rewrite Hf, IH.
Qed.

(** X2: filtering a second time with the same ignore lines changes nothing,
    and with no line at all the filter keeps every descriptor. *)
Theorem ignore_filter_idempotent (targets : list Repo) (toIgnore : list string) :
  ignore_filter_loop (ignore_filter_loop targets toIgnore []) toIgnore []
    = ignore_filter_loop targets toIgnore [] /\
  ignore_filter_loop targets [] [] = targets.
Proof.
  rewrite !ignore_filter_loop_filter. cbn [app]. split.
  - apply filter_filter_same.
  - apply filter_all. reflexivity.
Qed.

Lemma scan_lines_filter texts lines :
  scan_lines texts lines =
    lines ++ List.filter (fun t => negb (String.eqb t "")) texts.
Proof.
  revert lines. induction texts as [|t texts IH]; intros lines; cbn.
  - now rewrite app_nil_r.
  - rewrite IH. destruct (negb _); [now rewrite <- app_assoc | reflexivity].
Qed.

Lemma getRepoCountOnly_loop_count targets count :
  getRepoCountOnly_loop targets count =
    (count + length (List.filter (fun t => negb (IsWiki t)) targets))%nat.
Proof.
  revert count. induction targets as [|t targets IH]; intros count; cbn.
  - lia.
  - rewrite IH. destruct (IsWiki t); cbn; lia.
Qed.

(** X3: the repository count is the number of descriptors that are not wikis;
    with the number of wikis it makes up the length of the list, and it is
    additive over concatenation. *)
Theorem getRepoCountOnly_counts (targets more : list Repo) :
  getRepoCountOnly targets = length (List.filter (fun t => negb (IsWiki t)) targets) /\
  (getRepoCountOnly targets + length (List.filter IsWiki targets))%nat
    = length targets /\
  getRepoCountOnly (targets ++ more)
    = (getRepoCountOnly targets + getRepoCountOnly more)%nat.
Proof.
  unfold getRepoCountOnly. rewrite !getRepoCountOnly_loop_count. cbn.
  split; [reflexivity|]. split.
  - induction targets as [|t targets IH]; cbn; [reflexivity|].
    destruct (IsWiki t); cbn; lia.
  - rewrite List.filter_app, length_app. reflexivity.
Qed.

Section Filter_facts.

Context {World : Type} `{Host World} `{Packages World} `{Regexp}.

(** X4: reading the ignore-file gives the lines of the file that are not
    empty, in their order, with the error the scanner stopped on; a file
    that cannot be opened gives no line and the error. *)
Theorem readGhorgIgnore_lines (st : State World) :
  let path := GhorgIgnoreLocation (env st) in
  match os_Scan path (world st) with
  | OpenFailed err =>
      readGhorgIgnore st = Ret ([], Some err) (logged [EvScan path] st)
  | Scanned texts err =>
      exists lines,
        readGhorgIgnore st = Ret (lines, err) (logged [EvScan path] st) /\
        lines `sublist_of` texts /\
        forall t, In t lines <-> In t texts /\ t <> ""
  end.
Proof.
  cbn zeta. unfold readGhorgIgnore, bind, get, emit, modify. cbn.
  destruct (os_Scan _ _) as [err|texts err]; [reflexivity|].
  eexists. split; [reflexivity|]. rewrite scan_lines_filter. cbn [app]. split.
  - apply filter_sublist.
  - intros t. rewrite filter_In, negb_true_iff, String.eqb_neq. reflexivity.
Qed.

(** X5: a missing ignore-file is not an error: the stage gives the descriptors
    back as they are, without opening the file. The same holds for an
    ignore-file without any non-empty line. *)
Theorem ignoreStage_missing (targets : list Repo) (st : State World) :
  let path := GhorgIgnoreLocation (env st) in
  (os_Stat path (world st) = Some ENOENT ->
   ignoreStage targets st = Ret targets (logged [EvStat path (Some ENOENT)] st)) /\
  (forall texts,
     os_Stat path (world st) <> Some ENOENT ->
     os_Scan path (world st) = Scanned texts None ->
     Forall (fun t => t = "") texts ->
     exists st', ignoreStage targets st = Ret targets st' /\ world st' = world st).
Proof.
  cbn zeta. split.
  - intros Hstat.
    unfold ignoreStage, bind, get, Stat, emit, modify, ret. cbn.
    rewrite Hstat. reflexivity.
  - intros texts Hstat Hscan Hblank.
    unfold ignoreStage, readGhorgIgnore, bind, get, Stat, emit, modify, ret, print.
    cbn. destruct (IsNotExist _) eqn:Hne;
      [apply IsNotExist_ENOENT in Hne; contradiction|].
    cbn. rewrite Hscan. cbn. rewrite scan_lines_filter. cbn [app].
    replace (List.filter _ texts) with (@nil string).
    + rewrite ignore_filter_loop_filter, filter_all by reflexivity.
      eexists. split; reflexivity.
    + clear Hscan. induction Hblank as [|t texts -> _ IH]; cbn; [reflexivity|exact IH].
Qed.

Lemma filterByRegex_loop_sublist regex repos acc (st st1 : State World) kept :
  filterByRegex_loop regex repos acc st = Ret kept st1 ->
  st1 = st /\ exists more, kept = acc ++ more /\ more `sublist_of` repos.
Proof.
  revert acc. induction repos as [|r repos IH]; intros acc; cbn [filterByRegex_loop].
  - intros [= <- <-]. split; [reflexivity|]. exists []. now rewrite app_nil_r.
  - unfold bind, MustCompile. destruct (regexp_Compile regex) as [re|]; cbn;
      [|discriminate].
    intros Hloop. apply IH in Hloop as (-> & more & -> & Hsub).
    split; [reflexivity|]. destruct (negb _).
    + exists (r :: more). rewrite <- app_assoc. split; [reflexivity|].
      now constructor.
    + exists more. split; [reflexivity|]. now constructor.
Qed.

(** X6: filtering by the pattern a second time keeps what the first pass
    kept. *)
Theorem filterByRegex_idempotent (repos kept : list Repo) (st st1 : State World) :
  filterByRegex repos st = Ret kept st1 ->
  filterByRegex kept st1 = Ret kept st1.
Proof.
  unfold filterByRegex, bind, getenv, get.
  set (regex := Getenv (env st) "GHORG_MATCH_REGEX").
  intros Hrun.
  destruct (filterByRegex_loop_sublist _ _ _ _ _ _ Hrun) as (-> & _).
  fold regex. destruct (regexp_Compile regex) as [re|] eqn:Hre.
  - rewrite (filterByRegex_loop_compiled regex re) in Hrun by assumption.
    injection Hrun as <-.
    rewrite (filterByRegex_loop_compiled regex re) by assumption.
    cbn [app]. now rewrite filter_filter_same.
  - destruct repos as [|r repos].
    + injection Hrun as <-. reflexivity.
    + cbn [filterByRegex_loop] in Hrun. unfold bind, MustCompile in Hrun.
      rewrite Hre in Hrun. discriminate.
Qed.

(** X7: the two filters only remove descriptors: what the pipeline gives is
    the list it was given with some descriptors left out, in the same
    order, and the state changes by log entries only. *)
Theorem filterTargets_sublist (targets survivors : list Repo) (st st1 : State World) :
  filterTargets targets st = Ret survivors st1 ->
  survivors `sublist_of` targets /\
  (getRepoCountOnly survivors <= getRepoCountOnly targets)%nat /\
  exists evs, st1 = logged evs st /\ forallb quiet evs = true.
Proof.
  intros Hrun.
  assert (Hsub : survivors `sublist_of` targets).
  { revert Hrun. unfold filterTargets, regexStage. unfold bind at 1.
    unfold bind at 1. unfold getenv at 1, get.
    destruct (negb _).
    - unfold bind at 1. unfold bind at 1. unfold print, emit, modify. cbn.
      unfold filterByRegex, bind at 1, getenv, get.
      destruct (filterByRegex_loop _ _ _ _) as [kept s1|why s1] eqn:Hloop;
        [|discriminate].
      apply filterByRegex_loop_sublist in Hloop as (_ & more & -> & Hmore).
      cbn [app]. intros Hign. transitivity more; [|assumption].
      revert Hign. unfold ignoreStage, readGhorgIgnore, bind, get, Stat, emit,
        modify, ret, print, os_Exit, stop. cbn.
      destruct (IsNotExist _); cbn.
      + intros [= <- _]. reflexivity.
      + destruct (os_Scan _ _) as [err|texts [err|]]; cbn; try discriminate.
        intros [= <- _]. rewrite ignore_filter_loop_filter. apply filter_sublist.
    - unfold ret. unfold ignoreStage, readGhorgIgnore, bind, get, Stat, emit,
        modify, ret, print, os_Exit, stop. cbn.
      destruct (IsNotExist _); cbn.
      + intros [= <- _]. reflexivity.
      + destruct (os_Scan _ _) as [err|texts [err|]]; cbn; try discriminate.
        intros [= <- _]. rewrite ignore_filter_loop_filter. apply filter_sublist. }
  split; [assumption|]. split.
  - unfold getRepoCountOnly. rewrite !getRepoCountOnly_loop_count. cbn.
    apply sublist_length. clear Hrun.
    induction Hsub as [|x l1 l2 _ IH|x l1 l2 _ IH]; cbn.
    + constructor.
    + destruct (negb (IsWiki x)); [now constructor | assumption].
    + destruct (negb (IsWiki x)); [now constructor | assumption].
  - destruct (logs_only_filterTargets targets st) as (evs & Hfin & Hq).
    rewrite Hrun in Hfin. now exists evs.
Qed.

End Filter_facts.

(** * The jobs *)

Section Job_facts.

Context {World : Type} `{Host World} `{Packages World} `{Regexp}.

(** The whole log of a job: the existence test, the calls, and the success
    line when no call failed. *)
Lemma act_log (branch : string) (repo : Repo) (st : State World) calls w' :
  steps (planned st repo) repo (world st) = (calls, w') ->
  exists st',
    body (act branch repo) st = Ret tt st' /\
    targetCloneSource st' = targetCloneSource st /\
    log st' =
      log st ++
      [EvStat (HostPath repo) (os_Stat (HostPath repo) (world st))] ++
      call_events calls ++
      match failure calls with
      | Some _ => []
      | None =>
          [EvPrint PrintSuccess
             ("Success " +:+
              action_label
                (negb (IsNotExist (os_Stat (HostPath repo) (world st))))
                (String.eqb (Getenv (env st) "GHORG_BACKUP") "true")
                (String.eqb (Getenv (env st) "GHORG_NO_CLEAN") "true") +:+
              " repo: " +:+ URL repo +:+ " -> branch: " +:+ branch)]
      end.
Proof.
  intros Hsteps. destruct st. unfold planned, sequence in Hsteps.
  cbn in Hsteps. unfold_act. cbn.
  repeat first
    [ match goal with
      | E : String.eqb _ _ = _ |- _ => rewrite E; cbn
      | E : IsNotExist _ = _ |- _ => rewrite E; cbn
      end
    | match type of Hsteps with
      | context [String.eqb ?a ?b] =>
          let E := fresh "E" in destruct (String.eqb a b) eqn:E; cbn in Hsteps; cbn
      | context [IsNotExist ?a] =>
          let E := fresh "E" in destruct (IsNotExist a) eqn:E; cbn in Hsteps; cbn
      | context [git_run ?op ?r ?w] =>
          let E := fresh "E" in
          destruct (git_run op r w) as [[?|] ?] eqn:E; cbn in Hsteps; cbn
      end ].
  all: injection Hsteps as <- <-.
  all: try destruct (IsWiki repo) eqn:Ewiki; cbn.
  all: eexists; (split; [reflexivity|]); cbn; rewrite <- ?app_assoc; cbn.
  all: split; reflexivity.
Qed.

Lemma stat_paths_app (l1 l2 : list Event) :
  stat_paths (l1 ++ l2) = stat_paths l1 ++ stat_paths l2.
Proof. induction l1 as [|[] l1 IH]; simpl; rewrite ?IH; reflexivity. Qed.

Lemma stat_paths_calls calls : stat_paths (call_events calls) = [].
Proof. induction calls as [|c calls IH]; simpl; rewrite ?IH; reflexivity. Qed.

Lemma mkdir_paths_app (l1 l2 : list Event) :
  mkdir_paths (l1 ++ l2) = mkdir_paths l1 ++ mkdir_paths l2.
Proof. induction l1 as [|[] l1 IH]; simpl; rewrite ?IH; reflexivity. Qed.

Lemma mkdir_paths_calls calls : mkdir_paths (call_events calls) = [].
Proof. induction calls as [|c calls IH]; simpl; rewrite ?IH; reflexivity. Qed.

(** X8: a job logs the existence test on the resolved destination, then its
    calls, and ends with one success line, naming the action and the branch
    of the descriptor, exactly when no call failed. *)
Theorem job_log (target : Repo) (st : State World) calls w' :
  let repo := resolved st target in
  steps (planned st repo) repo (world st) = (calls, w') ->
  exists st',
    job target st = Ret tt st' /\
    log st' =
      log st ++
      [EvStat (HostPath repo) (os_Stat (HostPath repo) (world st))] ++
      call_events calls ++
      match failure calls with
      | Some _ => []
      | None =>
          [EvPrint PrintSuccess
             ("Success " +:+
              action_label
                (negb (IsNotExist (os_Stat (HostPath repo) (world st))))
                (String.eqb (Getenv (env st) "GHORG_BACKUP") "true")
                (String.eqb (Getenv (env st) "GHORG_NO_CLEAN") "true") +:+
              " repo: " +:+ URL target +:+ " -> branch: " +:+ CloneBranch target)]
      end.
Proof.
  intros repo Hsteps. rewrite job_act.
  destruct (act_log (CloneBranch target) repo st calls w' Hsteps)
    as (st' & Hrun & _ & Hlog).
  assert (Hurl : URL repo = URL target)
    by (unfold repo, resolved; apply resolveHostPath_URL).
  exists st'. split; [exact Hrun|]. now rewrite Hlog, Hurl.
Qed.

(** X9: when the destination does not exist, whatever the modes, the job
    clones, checks out the branch when one is configured, sets the origin
    and, when fetch-all is on, fetches, stopping after the first failure;
    [cloneCount] grows by one exactly when the clone and the checkout, if
    any, succeeded, and [pulledCount] is left alone. A failed clone is a
    notice for a wiki and an error otherwise, a failed checkout is a
    notice, a failed set-origin or fetch-all is an error. *)
Theorem clone_new_in_order (target : Repo) (st : State World) calls w' :
  let repo := resolved st target in
  let e := Getenv (env st) in
  let ops :=
    [Clone] ++ (if negb (String.eqb (e "GHORG_BRANCH") "") then [Checkout] else []) ++
    [SetOrigin] ++ (if String.eqb (e "GHORG_FETCH_ALL") "true" then [FetchAll] else []) in
  os_Stat (HostPath repo) (world st) = Some ENOENT ->
  steps ops repo (world st) = (calls, w') ->
  exists st',
    job target st = Ret tt st' /\
    git_calls (log st') = git_calls (log st) ++ calls /\
    ops_of calls `prefix_of` ops /\
    world st' = w' /\
    pulledCount st' = pulledCount st /\
    cloneCount st' =
      (cloneCount st +
       if succeeded Clone calls &&
          (String.eqb (e "GHORG_BRANCH") "" || succeeded Checkout calls)
       then 1 else 0)%nat /\
    match failure calls with
    | None =>
        ops_of calls = ops /\
        cloneInfos st' = cloneInfos st /\ cloneErrors st' = cloneErrors st
    | Some (Checkout, _) =>
        cloneErrors st' = cloneErrors st /\
        exists msg, cloneInfos st' = cloneInfos st ++ [msg]
    | Some (Clone, _) =>
        if IsWiki target
        then cloneErrors st' = cloneErrors st /\
             exists msg, cloneInfos st' = cloneInfos st ++ [msg]
        else cloneInfos st' = cloneInfos st /\
             exists msg, cloneErrors st' = cloneErrors st ++ [msg]
    | Some _ =>
        cloneInfos st' = cloneInfos st /\
        exists msg, cloneErrors st' = cloneErrors st ++ [msg]
    end.
Proof.
  intros repo e ops Hstat Hsteps.
  assert (Hplan : planned st repo = ops).
  { unfold planned, sequence. rewrite Hstat. reflexivity. }
  destruct (job_run target st calls w') as
    (st' & Hjob & Hw & _ & _ & Hlog & Hcc & Hpc & Hmsg).
  { fold repo. now rewrite Hplan. }
  assert (Hcalls : calls = fst (steps ops repo (world st)))
    by now rewrite Hsteps.
  exists st'. split; [exact Hjob|]. split; [exact Hlog|].
  split; [rewrite Hcalls; apply steps_prefix|]. split; [exact Hw|].
  assert (Hcomplete : failure calls = None -> ops_of calls = ops)
    by (rewrite Hcalls; apply steps_complete).
  clear Hcalls Hplan Hjob Hlog Hw. revert Hsteps Hcc Hpc Hmsg Hcomplete.
  unfold ops, downgraded. clear ops.
  destruct (String.eqb (e "GHORG_BRANCH") "");
    destruct (String.eqb (e "GHORG_FETCH_ALL") "true"); cbn;
    repeat match goal with
    | |- context [git_run ?op ?r ?w] =>
        destruct (git_run op r w) as [[?|] ?]; cbn
    end;
    intros [= <- <-]; cbn; intros -> -> Hmsg Hc;
    (split; [lia|]); (split; [lia|]);
    try (destruct Hmsg as (msg & Hmsg); destruct (IsWiki target); cbn in Hmsg;
         destruct Hmsg; eauto; fail);
    (split; [now apply Hc | exact Hmsg]).
Qed.

(** X10: when the destination exists and backup mode is on, the job calls
    update-remote and nothing else, also when no-clean is on; neither
    counter changes; a failure is a notice for a wiki and an error
    otherwise. *)
Theorem backup_update_only (target : Repo) (st : State World) :
  let repo := resolved st target in
  os_Stat (HostPath repo) (world st) <> Some ENOENT ->
  Getenv (env st) "GHORG_BACKUP" = "true" ->
  exists st',
    job target st = Ret tt st' /\
    git_calls (log st') =
      git_calls (log st) ++
      [(UpdateRemote, repo, fst (git_run UpdateRemote repo (world st)))] /\
    world st' = snd (git_run UpdateRemote repo (world st)) /\
    cloneCount st' = cloneCount st /\
    pulledCount st' = pulledCount st /\
    match fst (git_run UpdateRemote repo (world st)) with
    | None => cloneInfos st' = cloneInfos st /\ cloneErrors st' = cloneErrors st
    | Some _ =>
        if IsWiki target
        then cloneErrors st' = cloneErrors st /\
             exists msg, cloneInfos st' = cloneInfos st ++ [msg]
        else cloneInfos st' = cloneInfos st /\
             exists msg, cloneErrors st' = cloneErrors st ++ [msg]
    end.
Proof.
  intros repo Hstat Hbackup.
  assert (Hplan : planned st repo = [UpdateRemote]).
  { unfold planned, sequence. rewrite Hbackup.
    destruct (IsNotExist _) eqn:E; [now apply IsNotExist_ENOENT in E|].
    reflexivity. }
  destruct (steps (planned st repo) repo (world st)) as [calls w'] eqn:Hsteps.
  destruct (job_run target st calls w' Hsteps) as
    (st' & Hjob & Hw & _ & _ & Hlog & Hcc & Hpc & Hmsg).
  exists st'. split; [exact Hjob|].
  rewrite Hplan in Hsteps. cbn in Hsteps. unfold downgraded in Hmsg.
  destruct (git_run UpdateRemote repo (world st)) as [[err|] w1];
    injection Hsteps as <- <-; cbn in *;
    (split; [exact Hlog|]); (split; [exact Hw|]);
    (split; [lia|]); (split; [lia|]).
  - destruct Hmsg as (msg & Hmsg). destruct (IsWiki target); cbn in Hmsg;
      destruct Hmsg; eauto.
  - exact Hmsg.
Qed.

(** X11: when the destination exists, backup mode is off and no-clean is on,
    the job calls fetch-all and nothing else, so that the working tree is
    not touched; neither counter changes; a failure is a notice for a wiki
    and an error otherwise. *)
Theorem no_clean_fetch_only (target : Repo) (st : State World) :
  let repo := resolved st target in
  os_Stat (HostPath repo) (world st) <> Some ENOENT ->
  Getenv (env st) "GHORG_BACKUP" <> "true" ->
  Getenv (env st) "GHORG_NO_CLEAN" = "true" ->
  exists st',
    job target st = Ret tt st' /\
    git_calls (log st') =
      git_calls (log st) ++
      [(FetchAll, repo, fst (git_run FetchAll repo (world st)))] /\
    world st' = snd (git_run FetchAll repo (world st)) /\
    cloneCount st' = cloneCount st /\
    pulledCount st' = pulledCount st /\
    match fst (git_run FetchAll repo (world st)) with
    | None => cloneInfos st' = cloneInfos st /\ cloneErrors st' = cloneErrors st
    | Some _ =>
        if IsWiki target
        then cloneErrors st' = cloneErrors st /\
             exists msg, cloneInfos st' = cloneInfos st ++ [msg]
        else cloneInfos st' = cloneInfos st /\
             exists msg, cloneErrors st' = cloneErrors st ++ [msg]
    end.
Proof.
  intros repo Hstat Hbackup Hclean.
  assert (Hplan : planned st repo = [FetchAll]).
  { unfold planned, sequence. rewrite Hclean.
    apply String.eqb_neq in Hbackup. rewrite Hbackup.
    destruct (IsNotExist _) eqn:E; [now apply IsNotExist_ENOENT in E|].
    reflexivity. }
  destruct (steps (planned st repo) repo (world st)) as [calls w'] eqn:Hsteps.
  destruct (job_run target st calls w' Hsteps) as
    (st' & Hjob & Hw & _ & _ & Hlog & Hcc & Hpc & Hmsg).
  exists st'. split; [exact Hjob|].
  rewrite Hplan in Hsteps. cbn in Hsteps. unfold downgraded in Hmsg.
  destruct (git_run FetchAll repo (world st)) as [[err|] w1];
    injection Hsteps as <- <-; cbn in *;
    (split; [exact Hlog|]); (split; [exact Hw|]);
    (split; [lia|]); (split; [lia|]).
  - destruct Hmsg as (msg & Hmsg). destruct (IsWiki target); cbn in Hmsg;
      destruct Hmsg; eauto.
  - exact Hmsg.
Qed.

(** X12: for a descriptor that is not a wiki, in every mode, a job leaves at
    most one message: none when no call failed, a notice when the call that
    failed is a checkout, an error when it is any other operation. *)
Theorem plain_failure_classified (target : Repo) (st : State World) calls w' :
  IsWiki target = false ->
  steps (planned st (resolved st target)) (resolved st target) (world st)
    = (calls, w') ->
  exists st',
    job target st = Ret tt st' /\
    match failure calls with
    | None => cloneInfos st' = cloneInfos st /\ cloneErrors st' = cloneErrors st
    | Some (op, _) =>
        if same_op op Checkout
        then cloneErrors st' = cloneErrors st /\
             exists msg, cloneInfos st' = cloneInfos st ++ [msg]
        else cloneInfos st' = cloneInfos st /\
             exists msg, cloneErrors st' = cloneErrors st ++ [msg]
    end.
Proof.
  intros Hwiki Hsteps.
  destruct (job_run target st calls w' Hsteps) as
    (st' & Hjob & _ & _ & _ & _ & _ & _ & Hmsg).
  exists st'. split; [exact Hjob|]. unfold downgraded in Hmsg.
  rewrite Hwiki in Hmsg.
  destruct (failure calls) as [[[] e]|]; cbn in *;
    try exact Hmsg; destruct Hmsg as (msg & ? & ?); eauto.
Qed.

(** X13: the executor takes the descriptors one by one in the order of the
    list: it tests the existence of the resolved destination of each of
    them once, calls version-control operations only on those resolved
    descriptors, creates no directory, and leaves the environment and the
    parent folder as they were. *)
Theorem runJobs_visits_each_once (targets : list Repo) (st : State World) :
  exists st' calls,
    runJobs targets st = Ret tt st' /\
    env st' = env st /\
    parentFolder st' = parentFolder st /\
    stat_paths (log st') =
      stat_paths (log st) ++ map (fun t => HostPath (resolved st t)) targets /\
    mkdir_paths (log st') = mkdir_paths (log st) /\
    git_calls (log st') = git_calls (log st) ++ calls /\
    Forall (fun c => In (snd (fst c)) (map (resolved st) targets)) calls.
Proof.
  revert st. induction targets as [|t targets IH]; intros st.
  - exists st, []. cbn. rewrite !app_nil_r. repeat split. constructor.
  - destruct (steps (planned st (resolved st t)) (resolved st t) (world st))
      as [calls1 w1] eqn:Hsteps.
    destruct (job_run t st calls1 w1 Hsteps) as
      (s1 & Hjob & _ & He1 & Hp1 & Hg1 & _).
    destruct (act_log (CloneBranch t) _ st calls1 w1 Hsteps)
      as (s1' & Hjob' & _ & Hl1).
    rewrite <- job_act, Hjob in Hjob'. injection Hjob' as <-.
    destruct (IH s1) as (s2 & calls2 & Hrun & He2 & Hp2 & Hs2 & Hm2 & Hg2 & Hall).
    assert (Hres : forall x, resolved s1 x = resolved st x)
      by (intros x; unfold resolved; now rewrite He1, Hp1).
    exists s2, (calls1 ++ calls2).
    split; [cbn [runJobs]; unfold bind at 1; now rewrite Hjob|].
    split; [congruence|]. split; [congruence|]. split; [|split; [|split]].
    + rewrite Hs2, Hl1, !stat_paths_app, stat_paths_calls.
      rewrite (List.map_ext (fun x => HostPath (resolved s1 x))
                 (fun x => HostPath (resolved st x)))
        by (intros x; now rewrite Hres).
      cbn [map]. destruct (failure calls1); cbn; now rewrite <- !app_assoc.
    + rewrite Hm2, Hl1, !mkdir_paths_app, mkdir_paths_calls.
      destruct (failure calls1); cbn; now rewrite !app_nil_r.
    + now rewrite Hg2, Hg1, app_assoc.
    + apply Forall_app. split.
      * pose proof (steps_repo (planned st (resolved st t)) (resolved st t) (world st))
          as Hrepo.
        rewrite Hsteps in Hrepo. cbn in Hrepo.
        eapply Forall_impl; [exact Hrepo|].
        intros c ->. now left.
      * eapply Forall_impl; [exact Hall|].
        intros c Hc. right.
        now rewrite <- (List.map_ext (resolved s1) (resolved st) Hres).
Qed.

End Job_facts.

(** * The command *)

Section Command_more.

Context {World : Type} `{Host World} `{Packages World} `{Regexp}.

(** X14: the root is created only when the root followed by the parent folder
    does not exist, and it is the root alone that is created; when the
    creation fails the process panics; on any other outcome of the test,
    errors included, nothing is created. *)
Theorem createDirIfNotExist_cases (st : State World) :
  let root := Getenv (env st) "GHORG_ABSOLUTE_PATH_TO_CLONE_TO" in
  let tested := root +:+ parentFolder st in
  let err := os_Stat tested (world st) in
  (err <> Some ENOENT ->
   createDirIfNotExist st = Ret tt (logged [EvStat tested err] st)) /\
  (err = Some ENOENT ->
   exists st',
     log st' = log st ++ [EvStat tested err;
                           EvMkdirAll root (fst (os_MkdirAll root (world st)))] /\
     world st' = snd (os_MkdirAll root (world st)) /\
     createDirIfNotExist st =
       match fst (os_MkdirAll root (world st)) with
       | None => Ret tt st'
       | Some e => Stop (Panicked e) st'
       end).
Proof.
  cbn zeta. unfold createDirIfNotExist, bind, getenv, get, Stat, MkdirAll,
    emit, set_world, modify, panic, stop, ret. cbn. split.
  - intros Hne. destruct (IsNotExist _) eqn:E;
      [apply IsNotExist_ENOENT in E; contradiction | reflexivity].
  - intros ->. cbn. destruct (os_MkdirAll _ _) as [[e|] w]; cbn;
      eexists; (split; [|split; [|reflexivity]]); cbn;
      rewrite <- ?app_assoc; reflexivity.
Qed.

Lemma append_empty (s : string) : s +:+ "" = s.
Proof.
  induction s as [|c s IH]; [reflexivity|].
  change (String c (s +:+ "") = String c s). now rewrite IH.
Qed.

Lemma print_each_run p msgs (s : State World) :
  print_each p msgs s = Ret tt (logged (map (EvPrint p) msgs) s).
Proof.
  revert s. induction msgs as [|m msgs IH]; intros s; cbn [print_each map].
  - unfold ret. now rewrite logged_nil.
  - unfold bind, print, emit, modify. rewrite IH. unfold logged. cbn.
    now rewrite <- app_assoc.
Qed.

(** X15: the report prints every notice, then every error, each list in the
    order recorded and under its banner, and nothing for an empty list;
    then the two counters as they are, and the folder of the run, which is
    the backup folder in backup mode. Nothing but the log changes. *)
Theorem report_log (st : State World) :
  let e := Getenv (env st) in
  report st =
    Ret tt
      (logged
         (banner_block PrintInfo "============ Info ============" (cloneInfos st) ++
          banner_block PrintError "============ Issues ============" (cloneErrors st) ++
          [EvPrint PrintSuccess
             ("New repos cloned: " +:+ strconv.Itoa (cloneCount st) +:+
              ", existing repos pulled: " +:+ strconv.Itoa (pulledCount st));
           EvPrint Println "";
           EvPrint PrintSuccess
             ("Finished! " +:+ e "GHORG_ABSOLUTE_PATH_TO_CLONE_TO" +:+
              parentFolder st +:+
              (if String.eqb (e "GHORG_BACKUP") "true" then "_backup" else ""))])
         st).
Proof.
  cbn zeta. unfold report, printRemainingMessages.
  unfold bind, get, getenv, print, emit, modify, ret.
  destruct st as [e p t infos errors c q w l]. cbn.
  destruct infos as [|i infos], errors as [|x errors]; cbn;
    rewrite ?print_each_run; cbn; rewrite ?print_each_run; cbn;
    destruct (String.eqb _ _); unfold logged; cbn;
    rewrite <- ?app_assoc; cbn; rewrite ?app_nil_r; cbn;
    repeat (f_equal; try (rewrite <- ?app_assoc; cbn; reflexivity)).
  all: symmetry; apply append_empty.
Qed.

End Command_more.

Section Flag_facts.

Context {World : Type} `{Host World} `{Packages World} `{Regexp}.

Lemma with_env_same (s : State World) : with_env (env s) s = s.
Proof. now destruct s. Qed.

Lemma flag_to_env_run flags name variable value (s : State World) :
  flag_to_env flags name variable value s =
    Ret tt (with_env (apply_flag flags (env s) (name, variable, value)) s).
Proof.
  unfold flag_to_env, apply_flag. cbn.
  destruct (flags !! name); [reflexivity|]. unfold ret. now rewrite with_env_same.
Qed.

Lemma fold_left_step {A B} (f : A -> B -> A) x l a :
  fold_left f (x :: l) a = fold_left f l (f a x).
Proof. reflexivity. Qed.

Lemma fold_left_done {A B} (f : A -> B -> A) a : fold_left f [] a = a.
Proof. reflexivity. Qed.

Lemma flag_then flags name variable value (k : M World unit) e (s : State World) :
  bind (flag_to_env flags name variable value) (fun _ => k) (with_env e s) =
    k (with_env (apply_flag flags e (name, variable, value)) s).
Proof. unfold bind. now rewrite flag_to_env_run. Qed.

Lemma flags_to_env_run flags (s : State World) :
  flags_to_env flags s =
    Ret tt (with_env (fold_left (apply_flag flags) flag_table (env s)) s).
Proof.
  rewrite <- (with_env_same s) at 1. unfold flags_to_env. cbv zeta.
  do 20 (etransitivity; [apply flag_then|]).
  etransitivity; [apply flag_to_env_run|].
  unfold flag_table. cbv zeta. rewrite !fold_left_step, fold_left_done.
  reflexivity.
Qed.

Lemma Getenv_insert k v e k' :
  Getenv (<[k := v]> e) k' = if decide (k = k') then v else Getenv e k'.
Proof.
  unfold Getenv. rewrite lookup_insert. now destruct (decide (k = k')).
Qed.

Lemma fold_apply_other flags table e variable :
  ~ In variable (map (fun r => snd (fst r)) table) ->
  Getenv (fold_left (apply_flag flags) table e) variable = Getenv e variable.
Proof.
  revert e. induction table as [|[[n v] f] table IH]; intros e Hnot; [reflexivity|].
  cbn [fold_left]. rewrite IH by (intros Hin; apply Hnot; now right).
  unfold apply_flag. cbn. destruct (flags !! n); [|reflexivity].
  rewrite Getenv_insert. destruct (decide (v = variable)) as [->|]; [|reflexivity].
  destruct Hnot. now left.
Qed.

Lemma fold_apply_row flags table e name variable value :
  List.NoDup (map (fun r => snd (fst r)) table) ->
  In (name, variable, value) table ->
  Getenv (fold_left (apply_flag flags) table e) variable =
    match flags !! name with
    | Some v => value v
    | None => Getenv e variable
    end.
Proof.
  revert e. induction table as [|[[n v] f] table IH]; intros e Hnd Hin; [destruct Hin|].
  cbn [map] in Hnd. apply List.NoDup_cons_iff in Hnd as (Hfresh & Hnd).
  cbn [fold_left]. destruct Hin as [[= -> -> ->]|Hin].
  - rewrite fold_apply_other by assumption.
    unfold apply_flag. cbn. destruct (flags !! name); [|reflexivity].
    rewrite Getenv_insert. now destruct (decide (variable = variable)).
  - rewrite IH by assumption. destruct (flags !! name); [reflexivity|].
    unfold apply_flag. cbn. destruct (flags !! n); [|reflexivity].
    rewrite Getenv_insert. destruct (decide (v = variable)) as [->|]; [|reflexivity].
    destruct Hfresh. apply in_map_iff. now exists (name, variable, value).
Qed.

Lemma flag_table_NoDup :
  List.NoDup (map (fun r : string * string * (string -> string) => snd (fst r))
                flag_table).
Proof.
  cbn. repeat (apply List.NoDup_cons; [cbn; intuition discriminate|]).
  apply List.NoDup_nil.
Qed.

(** X16: a flag given on the command line replaces the value of its variable,
    with the value of the flag (lower-cased for the clone type and the
    provider, with a trailing slash for the path, and always ["true"] for
    the mode flags, whatever value the flag was given); the variable of a
    flag that is not given, and every other variable, keeps its value.
    Nothing else changes. *)
Theorem flags_override_env (flags : gmap string string) (st : State World) :
  exists e',
    flags_to_env flags st = Ret tt (with_env e' st) /\
    (forall name variable value,
       In (name, variable, value) flag_table ->
       Getenv e' variable =
         match flags !! name with
         | Some v => value v
         | None => Getenv (env st) variable
         end) /\
    (forall variable,
       ~ In variable (map (fun r => snd (fst r)) flag_table) ->
       Getenv e' variable = Getenv (env st) variable).
Proof.
  eexists. split; [apply flags_to_env_run|]. split.
  - intros name variable value Hin.
    apply fold_apply_row; [apply flag_table_NoDup | assumption].
  - intros variable Hnot. now apply fold_apply_other.
Qed.

(** X17: with an argument the command goes on with it; without any argument it
    goes on, with the empty name, only for the users of GitHub, and stops
    with status 1 otherwise; the provider and the clone type are read after
    the flags have been applied. *)
Theorem prepare_arguments (flags : gmap string string) (argz : list string)
    (st : State World) :
  let e1 := fold_left (apply_flag flags) flag_table (env st) in
  match argz with
  | _ :: _ =>
      exists st1, prepare flags argz st = Ret argz st1 /\
                  log st1 = log st /\ world st1 = world st
  | [] =>
      if String.eqb (Getenv e1 "GHORG_SCM_TYPE") "github" &&
         String.eqb (Getenv e1 "GHORG_CLONE_TYPE") "user"
      then exists st1, prepare flags [] st = Ret [""] st1 /\
                       log st1 = log st /\ world st1 = world st
      else prepare flags [] st =
             Stop (Exited 1)
               (logged [EvPrint PrintError "You must provide an org or user to clone"]
                  (with_env e1 st))
  end.
Proof.
  cbn zeta. destruct argz as [|a argz].
  - destruct (_ && _) eqn:Hc;
      unfold prepare; unfold bind at 1; rewrite flags_to_env_run;
      unfold bind at 1; cbn [length Nat.ltb Nat.leb];
      unfold bind at 1, getenv at 1, get; unfold bind at 1, getenv at 1, get;
      cbn [env with_env]; rewrite Hc; [|reflexivity].
    unfold ret at 1. unfold bind, get, set_env, modify, token_flag, getenv, Setenv, ret.
    cbn. destruct (flags !! "token"); cbn;
      repeat match goal with
      | |- context [if String.eqb ?a ?b then _ else _] => destruct (String.eqb a b); cbn
      end; eexists; repeat split.
  - unfold prepare; unfold bind at 1; rewrite flags_to_env_run;
      unfold bind at 1; cbn [length Nat.ltb Nat.leb].
    unfold ret at 1. unfold bind, get, set_env, modify, token_flag, getenv, Setenv, ret.
    cbn. destruct (flags !! "token"); cbn;
      repeat match goal with
      | |- context [if String.eqb ?a ?b then _ else _] => destruct (String.eqb a b); cbn
      end; eexists; repeat split.
Qed.

(** X18: the token given with the token flag is what the variable of the
    provider holds when the preparation is over, whatever the token
    look-up found before. *)
Theorem token_flag_wins (flags : gmap string string) (argz argz' : list string)
    (st st1 : State World) (v : string) :
  prepare flags argz st = Ret argz' st1 ->
  flags !! "token" = Some v ->
  let scm := Getenv (env st1) "GHORG_SCM_TYPE" in
  (scm = "github" -> Getenv (env st1) "GHORG_GITHUB_TOKEN" = v) /\
  (scm = "gitlab" -> Getenv (env st1) "GHORG_GITLAB_TOKEN" = v) /\
  (scm = "bitbucket" -> Getenv (env st1) "GHORG_BITBUCKET_APP_PASSWORD" = v) /\
  (scm = "gitea" -> Getenv (env st1) "GHORG_GITEA_TOKEN" = v).
Proof.
  intros Hprep Htoken. revert Hprep.
  unfold prepare. unfold bind at 1. rewrite flags_to_env_run. unfold bind at 1.
  set (s1 := with_env _ st).
  match goal with
  | |- match ?x with _ => _ end = _ -> _ => destruct x as [a s2|why s2]
  end; [|discriminate].
  unfold bind, get, set_env, modify, token_flag, getenv, Setenv, ret.
  rewrite Htoken. cbn.
  set (e2 := GetOrSetToken (env s2) (world s2)).
  destruct (String.eqb (Getenv e2 "GHORG_SCM_TYPE") "github") eqn:E1;
    [|destruct (String.eqb (Getenv e2 "GHORG_SCM_TYPE") "gitlab") eqn:E2;
      [|destruct (String.eqb (Getenv e2 "GHORG_SCM_TYPE") "bitbucket") eqn:E3;
        [|destruct (String.eqb (Getenv e2 "GHORG_SCM_TYPE") "gitea") eqn:E4]]];
    cbn; intros [= _ <-]; cbn;
    rewrite ?Getenv_insert; cbn;
    repeat match goal with
    | E : String.eqb _ _ = true |- _ => apply String.eqb_eq in E
    | E : String.eqb _ _ = false |- _ => apply String.eqb_neq in E
    end;
    repeat split; intros Hs; repeat case_decide; congruence.
Qed.

End Flag_facts.

Section Setup_facts.

Context {World : Type} `{Host World} `{Packages World} `{Regexp}.

(** X19: the parent folder is the output directory as it is given when one is
    set, whatever the arguments, none included; otherwise it is the first
    argument in lower case, except for [all-groups] with a base URL, where
    it is the host of that URL without a leading [www.] and a trailing
    [.com], or [all-groups] when the URL does not parse; without output
    directory and without argument the function panics. *)
Theorem parseParentFolder_cases (argz : list string) (st : State World) :
  let out := Getenv (env st) "GHORG_OUTPUT_DIR" in
  let base := Getenv (env st) "GHORG_SCM_BASE_URL" in
  if negb (String.eqb out "") then
    parseParentFolder argz st = Ret tt (with_parentFolder out st)
  else
    match argz with
    | [] => exists msg, parseParentFolder argz st = Stop (Panicked msg) st
    | first :: _ =>
        if String.eqb first "all-groups" && negb (String.eqb base "") then
          match url_Parse_Host base with
          | None =>
              parseParentFolder argz st = Ret tt (with_parentFolder "all-groups" st)
          | Some host =>
              let parent :=
                strings_more.TrimSuffix (strings_more.TrimPrefix host "www.") ".com" in
              parseParentFolder argz st =
                Ret tt (logged [EvPrint Println parent] (with_parentFolder parent st))
          end
        else
          parseParentFolder argz st =
            Ret tt (with_parentFolder (strings_more.ToLower first) st)
    end.
Proof.
  cbn zeta. unfold parseParentFolder, body, bind, getenv, get, set_parentFolder,
    modify, panic, stop, ret, print, emit. cbn.
  destruct (negb (String.eqb (Getenv (env st) "GHORG_OUTPUT_DIR") "")); cbn;
    [reflexivity|].
  destruct argz as [|first rest]; cbn; [eexists; reflexivity|].
  destruct (String.eqb first "all-groups") eqn:Hall; cbn; [|reflexivity].
  apply String.eqb_eq in Hall as ->.
  destruct (negb (String.eqb (Getenv (env st) "GHORG_SCM_BASE_URL") "")); cbn;
    [|reflexivity].
  destruct (url_Parse_Host _); reflexivity.
Qed.

Lemma bind_assoc {A B C} (m : M World A) (k : A -> M World B) (h : B -> M World C)
    (s : State World) :
  bind m (fun a => bind (k a) h) s = bind (bind m k) h s.
Proof. unfold bind. now destruct (m s). Qed.

Lemma logs_only_info_if cond msg : logs_only (World := World) printing (info_if cond msg).
Proof.
  unfold info_if, print. destruct cond; [now apply logs_only_emit | apply logs_only_ret].
Qed.

Lemma returns_info_if cond msg : returns (World := World) (info_if cond msg).
Proof.
  unfold info_if, print, emit. destruct cond; [apply returns_modify | apply returns_ret].
Qed.

Lemma logs_only_PrintConfigs :
  logs_only (World := World) printing (asciiTime ;; PrintConfigs)%go.
Proof.
  unfold asciiTime, PrintConfigs, print.
  repeat first
    [ apply logs_only_bind; [|intros ?]
    | apply logs_only_get
    | apply logs_only_info_if
    | apply logs_only_emit; reflexivity ].
Qed.

Lemma returns_PrintConfigs :
  returns (World := World) (asciiTime ;; PrintConfigs)%go.
Proof.
  unfold asciiTime, PrintConfigs, print, emit.
  repeat first
    [ apply returns_bind; [|intros ?]
    | apply returns_get
    | apply returns_info_if
    | apply returns_modify ].
Qed.

(** X20: the provider is asked at most once, after the banner and the
    configuration have been printed, with the provider type in lower case
    and the target of the run; when the provider type is empty, or no
    client exists for it, the process exits with status 1 and the provider
    is not asked. *)
Theorem getCloneUrls_lists_once (isOrg : bool) (st : State World) :
  let scmType := strings_more.ToLower (Getenv (env st) "GHORG_SCM_TYPE") in
  exists evs,
    forallb printing evs = true /\
    getCloneUrls isOrg st =
      if String.eqb scmType "" then
        Stop (Exited 1) (logged (evs ++ [EvPrint PrintError "GHORG_SCM_TYPE not set"]) st)
      else
        match scm_GetClient scmType with
        | Some err => Stop (Exited 1) (logged (evs ++ [EvPrint PrintError err]) st)
        | None =>
            Ret (scm_GetRepos scmType isOrg (targetCloneSource st) (env st) (world st))
              (logged (evs ++ [EvListRepos isOrg (targetCloneSource st)]) st)
        end.
Proof.
  cbn zeta.
  destruct (returns_logged printing _ st returns_PrintConfigs logs_only_PrintConfigs)
    as ([] & evs & Hrun & Hevs).
  exists evs. split; [exact Hevs|].
  unfold getCloneUrls.
  etransitivity; [apply (bind_assoc asciiTime (fun _ => PrintConfigs))|].
  unfold bind at 1. rewrite Hrun.
  unfold bind, getenv, get, print, emit, modify, os_Exit, stop, ret. cbn.
  destruct (strings_more.ToLower _) as [|c scm]; cbn.
  - unfold logged. cbn. now rewrite app_assoc.
  - destruct (scm_GetClient _); cbn; unfold logged; cbn; now rewrite app_assoc.
Qed.

(** X21: a clone type other than [org] and [user] ends the process with status
    1 before anything is printed or asked; an error of the provider ends it
    with status 1 whatever list came with it; a list that is not empty and
    comes without error is handed over to [CloneAllRepos] as it is. *)
Theorem setupRepoClone_cases (st : State World) :
  let cloneType := Getenv (env st) "GHORG_CLONE_TYPE" in
  if String.eqb cloneType "org" || String.eqb cloneType "user" then
    match getCloneUrls (String.eqb cloneType "org") st with
    | Stop why st1 => setupRepoClone st = Stop why st1
    | Ret (_, Some e) st1 =>
        setupRepoClone st =
          Stop (Exited 1)
            (logged [EvPrint PrintError "Encountered an error, aborting";
                     EvPrint Println e] st1)
    | Ret (repo :: repos, None) st1 =>
        setupRepoClone st = CloneAllRepos (repo :: repos) st1
    | Ret ([], None) st1 =>
        exists msg,
          setupRepoClone st = Stop (Exited 0) (logged [EvPrint PrintInfo msg] st1)
    end
  else
    setupRepoClone st =
      Stop (Exited 1)
        (logged [EvPrint PrintError "GHORG_CLONE_TYPE not set or unsupported"] st).
Proof.
  cbn zeta.
  assert (Hrun : forall b,
    (if String.eqb (Getenv (env st) "GHORG_CLONE_TYPE") "org" then true
     else String.eqb (Getenv (env st) "GHORG_CLONE_TYPE") "user") = true ->
    b = String.eqb (Getenv (env st) "GHORG_CLONE_TYPE") "org" ->
    setupRepoClone st =
      match getCloneUrls b st with
      | Stop why st1 => Stop why st1
      | Ret (_, Some e) st1 =>
          Stop (Exited 1)
            (logged [EvPrint PrintError "Encountered an error, aborting";
                     EvPrint Println e] st1)
      | Ret (repo :: repos, None) st1 => CloneAllRepos (repo :: repos) st1
      | Ret ([], None) st1 =>
          Stop (Exited 0)
            (logged [EvPrint PrintInfo
               ("No repos found for " +:+ Getenv (env st1) "GHORG_SCM_TYPE" +:+ " " +:+
                Getenv (env st) "GHORG_CLONE_TYPE" +:+ ": " +:+ targetCloneSource st1 +:+
                ", please verify you have sufficient permissions to clone target repos, double check spelling and try again.")]
               st1)
      end).
  { intros b Hsup ->.
    unfold setupRepoClone. unfold bind at 1. unfold getenv at 1, get. cbv beta.
    unfold getAllOrgCloneUrls, getAllUserCloneUrls. unfold bind at 1.
    destruct (String.eqb _ "org"); [|rewrite Hsup];
      (destruct (getCloneUrls _ st) as [[[|repo repos] [e|]] st1|why st1];
       cbn; unfold os_Exit, stop, logged; cbn; rewrite <- ?app_assoc;
       reflexivity). }
  destruct (String.eqb _ "org") eqn:Horg; cbn [orb].
  - rewrite (Hrun true eq_refl eq_refl).
    destruct (getCloneUrls true st) as [[[|repo repos] [e|]] st1|why st1];
      try reflexivity. eexists. reflexivity.
  - destruct (String.eqb _ "user") eqn:Huser.
    + rewrite (Hrun false eq_refl eq_refl).
      destruct (getCloneUrls false st) as [[[|repo repos] [e|]] st1|why st1];
        try reflexivity. eexists. reflexivity.
    + clear Hrun. unfold setupRepoClone. unfold bind at 1. unfold getenv at 1, get.
      cbv beta. rewrite Horg, Huser. reflexivity.
Qed.

Lemma mkdir_paths_quiet evs : forallb quiet evs = true -> mkdir_paths evs = [].
Proof.
  induction evs as [|[] evs IH]; cbn; try assumption; try congruence.
Qed.

(** X22: the root is created before the concurrency value is looked at: when
    the filters pass, the run is not a dry run and the root is missing, a
    concurrency value that is not a number ends the process with status 1
    after the root has been created. *)
Theorem fatal_concurrency_after_mkdir (targets ts : list Repo)
    (st st1 : State World) (w' : World) :
  let e := Getenv (env st) in
  let root := e "GHORG_ABSOLUTE_PATH_TO_CLONE_TO" in
  filterTargets targets st = Ret ts st1 ->
  e "GHORG_DRY_RUN" <> "true" ->
  os_Stat (root +:+ parentFolder st) (world st) = Some ENOENT ->
  os_MkdirAll root (world st) = (None, w') ->
  strconv.Atoi (e "GHORG_CONCURRENCY") = None ->
  exists st2,
    CloneAllRepos targets st = Stop (Exited 1) st2 /\
    world st2 = w' /\
    mkdir_paths (log st2) = mkdir_paths (log st) ++ [root] /\
    git_calls (log st2) = git_calls (log st).
Proof.
  cbn zeta. intros Hfilter Hdry Hstat Hmk Hconc.
  destruct (logs_only_filterTargets targets st) as (evs & Hfin & Hq).
  rewrite Hfilter in Hfin. cbn in Hfin. subst st1.
  destruct (announce_run ts (logged evs st)) as (found & Hann).
  apply String.eqb_neq in Hdry.
  unfold CloneAllRepos, preflight, body. unfold bind at 1. unfold bind at 1.
  rewrite Hfilter. unfold bind at 1. rewrite Hann.
  unfold bind at 1, getenv at 1, get. cbn [env logged]. rewrite Hdry.
  unfold bind at 1, ret at 1. unfold bind at 1.
  unfold createDirIfNotExist, concurrency, log_Fatal, os_Exit, bind, getenv, get,
    Stat, MkdirAll, emit, set_world, modify, panic, stop, ret, print, emit, modify.
  cbn. rewrite Hstat. cbn. rewrite Hmk. cbn. rewrite Hconc. cbn.
  eexists. split; [reflexivity|]. cbn. split; [reflexivity|].
  rewrite !mkdir_paths_app, !git_calls_app, (mkdir_paths_quiet evs Hq).
  rewrite (git_calls_early evs)
    by (apply forallb_forall; intros x Hx; apply quiet_early;
        now apply (proj1 (forallb_forall _ _) Hq)).
  cbn. now rewrite !app_nil_r.
Qed.

End Setup_facts.

(** * Further runs in the scripted world *)

Section Scripted_more.

#[local] Existing Instance Scripted.host.
#[local] Existing Instance Scripted.packages.
#[local] Existing Instance Scripted.regexps.

Import Scripted.

(** Without an ignore-file, and with an ignore-file of two empty lines,
    the stage gives the two descriptors back. *)
Lemma ignoreStage_missing_witness :
  ignoreStage [app; wiki] (start [root] "org" fresh)
    = Ret [app; wiki]
        (logged [EvStat ignore_path (Some ENOENT)] (start [root] "org" fresh)) /\
  exists st',
    ignoreStage [app; wiki]
      (start [root] "org" (ignoring (Scanned [""; ""] None) fresh))
      = Ret [app; wiki] st'.
Proof.
  split.
  - destruct (ignoreStage_missing [app; wiki] (start [root] "org" fresh)) as [Hm _].
    apply Hm. reflexivity.
  - destruct (ignoreStage_missing [app; wiki]
                (start [root] "org" (ignoring (Scanned [""; ""] None) fresh)))
      as [_ Hb].
    destruct (Hb [""; ""]) as (st' & Hrun & _).
    + vm_compute. discriminate.
    + reflexivity.
    + repeat constructor.
    + exists st'. exact Hrun.
Defined.

(** The pattern [wiki] keeps the wiki of the two descriptors, and keeps it
    again. *)
Lemma filterByRegex_idempotent_witness :
  let st := start [root; ("GHORG_MATCH_REGEX", "wiki")] "org" fresh in
  filterByRegex [app; wiki] st = Ret [wiki] st /\
  filterByRegex [wiki] st = Ret [wiki] st.
Proof.
  intros st.
  assert (Hrun : filterByRegex [app; wiki] st = Ret [wiki] st)
    by (vm_compute; reflexivity).
  split; [exact Hrun|].
  exact (filterByRegex_idempotent [app; wiki] [wiki] st st Hrun).
Defined.

(** With the pattern [app] and an ignore-file that names the wiki, the
    repository is what is left of the two descriptors. *)
Lemma filterTargets_sublist_witness :
  let st :=
    start [root; ("GHORG_MATCH_REGEX", "app")] "org"
      (ignoring (Scanned ["app.wiki"] None) fresh) in
  exists st1,
    filterTargets [app; wiki] st = Ret [app] st1 /\
    [app] `sublist_of` [app; wiki] /\
    (getRepoCountOnly [app] <= getRepoCountOnly [app; wiki])%nat.
Proof.
  intros st. eexists. split.
  - vm_compute. reflexivity.
  - edestruct (filterTargets_sublist [app; wiki] [app] st) as (Hsub & Hcount & _).
    + vm_compute. reflexivity.
    + split; [exact Hsub | exact Hcount].
Defined.

(** A repository that is cloned prints its success line. *)
Lemma job_log_witness :
  exists st',
    job app (start [root] "org" fresh) = Ret tt st' /\
    printed (log st') =
      [(PrintSuccess,
        "Success cloning repo: https://host/org/app.git -> branch: master")].
Proof.
  edestruct (job_log app (start [root] "org" fresh)) as (st' & Hjob & Hlog).
  - vm_compute. reflexivity.
  - exists st'. split; [exact Hjob|]. rewrite Hlog. vm_compute. reflexivity.
Defined.

(** With a branch configured a new repository is cloned, checked out and
    given its origin. *)
Lemma clone_new_in_order_witness :
  exists st',
    job app (start [root; ("GHORG_BRANCH", "develop")] "org" fresh) = Ret tt st' /\
    ops_of (git_calls (log st')) = [Clone; Checkout; SetOrigin] /\
    cloneCount st' = 1%nat.
Proof.
  edestruct (clone_new_in_order app
               (start [root; ("GHORG_BRANCH", "develop")] "org" fresh))
    as (st' & Hjob & Hlog & _ & _ & _ & Hcount & _).
  - vm_compute. reflexivity.
  - vm_compute. reflexivity.
  - exists st'. split; [exact Hjob|]. split.
    + rewrite Hlog. vm_compute. reflexivity.
    + rewrite Hcount. vm_compute. reflexivity.
Defined.

(** A backup that is on disk is updated, and counted nowhere. *)
Lemma backup_update_only_witness :
  let st :=
    start [root; ("GHORG_BACKUP", "true")] "org"
      (mkWorld ["/home/u/ghorg/org_backup/app"] [] [] (Scanned [] None) ([], None)) in
  exists st',
    job app st = Ret tt st' /\
    ops_of (git_calls (log st')) = [UpdateRemote] /\
    cloneCount st' = 0%nat /\ pulledCount st' = 0%nat.
Proof.
  intros st.
  destruct (backup_update_only app st) as (st' & Hjob & Hlog & _ & Hc & Hp & _).
  - vm_compute. discriminate.
  - vm_compute. reflexivity.
  - exists st'. split; [exact Hjob|]. split; [|split].
    + rewrite Hlog. reflexivity.
    + rewrite Hc. reflexivity.
    + rewrite Hp. reflexivity.
Defined.

(** With no-clean on, a repository that is on disk is fetched only. *)
Lemma no_clean_fetch_only_witness :
  let st := start [root; ("GHORG_NO_CLEAN", "true")] "org" cloned in
  exists st',
    job app st = Ret tt st' /\
    ops_of (git_calls (log st')) = [FetchAll] /\
    cloneCount st' = 0%nat /\ pulledCount st' = 0%nat.
Proof.
  intros st.
  destruct (no_clean_fetch_only app st) as (st' & Hjob & Hlog & _ & Hc & Hp & _).
  - vm_compute. discriminate.
  - vm_compute. discriminate.
  - vm_compute. reflexivity.
  - exists st'. split; [exact Hjob|]. split; [|split].
    + rewrite Hlog. reflexivity.
    + rewrite Hc. reflexivity.
    + rewrite Hp. reflexivity.
Defined.

(** A repository whose pull fails leaves one error and no notice. *)
Lemma plain_failure_classified_witness :
  exists st',
    job app (start [root] "org" (refusing [(Pull, URL app)] cloned)) = Ret tt st' /\
    cloneInfos st' = [] /\
    exists msg, cloneErrors st' = [msg].
Proof.
  edestruct (plain_failure_classified app
               (start [root] "org" (refusing [(Pull, URL app)] cloned)))
    as (st' & Hjob & Hmsg).
  - reflexivity.
  - vm_compute. reflexivity.
  - exists st'. split; [exact Hjob|]. exact Hmsg.
Defined.

(** With nothing on disk the root is created, and only the root. *)
Lemma createDirIfNotExist_cases_witness :
  exists st',
    createDirIfNotExist (start [root] "org" fresh) = Ret tt st' /\
    mkdir_paths (log st') = ["/home/u/ghorg/"].
Proof.
  destruct (createDirIfNotExist_cases (start [root] "org" fresh)) as [_ Hnew].
  destruct Hnew as (st' & Hlog & _ & Hrun); [reflexivity|].
  exists st'. split; [exact Hrun|]. rewrite Hlog. reflexivity.
Defined.

(** The token given on the command line is the GitHub token of the run. *)
Lemma token_flag_wins_witness :
  let flags : gmap string string := <["token" := "abc"]> ∅ in
  let st :=
    start [root; ("GHORG_SCM_TYPE", "github"); ("GHORG_GITHUB_TOKEN", "old")]
      "" fresh in
  exists st1,
    prepare flags ["org"] st = Ret ["org"] st1 /\
    Getenv (env st1) "GHORG_GITHUB_TOKEN" = "abc".
Proof.
  intros flags st. eexists. split.
  - vm_compute. reflexivity.
  - apply (token_flag_wins flags ["org"] ["org"] st _ "abc").
    + vm_compute. reflexivity.
    + reflexivity.
    + vm_compute. reflexivity.
Defined.

(** A concurrency of [1.5] ends the run after the root has been created
    and before any version-control call. *)
Lemma fatal_concurrency_after_mkdir_witness :
  let st := start [root; ("GHORG_CONCURRENCY", "1.5")] "org" fresh in
  exists st2,
    CloneAllRepos [app] st = Stop (Exited 1) st2 /\
    mkdir_paths (log st2) = ["/home/u/ghorg/"] /\
    git_calls (log st2) = [].
Proof.
  intros st.
  edestruct (fatal_concurrency_after_mkdir [app] [app] st)
    as (st2 & Hrun & _ & Hmk & Hgit).
  - vm_compute. reflexivity.
  - vm_compute. discriminate.
  - reflexivity.
  - reflexivity.
  - reflexivity.
  - exists st2. split; [exact Hrun|]. split; [exact Hmk | exact Hgit].
Defined.

End Scripted_more.
